(** * Birdactyl Go SDK: the plugin's connection and dispatch engine

    A shallow embedding of the package [birdactyl] (types.go, plugin.go):
    the handler registry and its builder methods, the route matcher, the
    dispatch functions behind [handleMessage], the handshake and receive
    loop of [Start], and the config file; and of the UI builder (ui.go).

    Go strings are byte sequences; they are embedded as [string] (a list of
    8-bit characters), so [len], indexing and slicing are by byte, as in Go.
    Go maps with string keys are [gmap string _]. *)

From Stdlib Require Import ZArith Ascii String.
From stdpp Require Import base gmap strings list fin_maps.

Local Open Scope Z_scope.
Local Open Scope nat_scope.

(** ** Strings *)

Module Str.

(** The double quote character, code 34. *)
Definition dquote : string := String "034" "".

Definition rest_from (i : nat) (s : string) : string :=
  String.substring i (String.length s - i) s.

Definition upto (i : nat) (s : string) : string :=
  String.substring 0 i s.

Definition last_byte (s : string) : option ascii :=
  String.get (String.length s - 1) s.

End Str.

(** ** plugin.go: [matchPath] and [splitKey] *)

(** [matchPath] (plugin.go, lines 629-637).  [pattern[len(pattern)-1]] is
    [String.get], and [s[:n]] is [Str.upto n s]; Go evaluates the slices only
    when the length test before [&&] holds, and so does the value here. *)
Definition matchPath (pattern path : string) : bool :=
  if String.eqb pattern path then true
  else if (0 <? String.length pattern)
          && bool_decide (String.get (String.length pattern - 1) pattern = Some "*"%char)
  then (String.length pattern - 1 <=? String.length path)
       && String.eqb (Str.upto (String.length pattern - 1) path)
                     (Str.upto (String.length pattern - 1) pattern)
  else false.

(** The loop of [splitKey]: the index of the first colon.  Go ranges over the
    runes of [key]; the byte 0x3A never occurs inside a multi-byte UTF-8
    sequence and an invalid byte is visited on its own, so the rune loop
    stops at the first byte equal to [':'], at that byte's index. *)
Fixpoint colonIndex (key : string) : option nat :=
  match key with
  | "" => None
  | String c rest => if Ascii.eqb c ":" then Some 0 else S <$> colonIndex rest
  end.

(** [splitKey] (plugin.go, lines 620-627). *)
Definition splitKey (key : string) : string * string :=
  match colonIndex key with
  | Some i => (Str.upto i key, Str.rest_from (i + 1) key)
  | None => (key, "")
  end.

(** A string holds no colon. *)
Fixpoint colonFree (s : string) : bool :=
  match s with
  | "" => true
  | String c rest => negb (Ascii.eqb c ":") && colonFree rest
  end.

(** ** encoding/json, as far as this package's own literals need it

    [errorResponse] and [Error] marshal the literal
    [map[string]interface{}{"success": false, "error": msg}].  The encoder
    is Go's library; what is embedded here follows its documentation: a map
    is written as an object whose keys are sorted (as byte strings), with no
    white space, booleans as [true]/[false], and strings quoted with the
    encoder's default escapes.  Bytes from 0x80 on are copied (valid UTF-8
    other than U+2028 and U+2029); the replacement of invalid UTF-8 is not
    modelled. *)
Module json.

#[local] Unset Elimination Schemes.

Inductive Value :=
  | Null
  | Bool (b : bool)
  | Text (s : string)
  | Map (fields : list (string * Value)).

#[local] Set Elimination Schemes.

Definition backslash : string := String "092" "".

Definition hexDigit (n : nat) : string :=
  match String.get n "0123456789abcdef" with
  | Some c => String c ""
  | None => ""
  end.

Definition escapeByte (c : ascii) : string :=
  let n := nat_of_ascii c in
  if (n =? 34) || (n =? 92) then backslash +:+ String c ""
  else if n =? 8 then backslash +:+ "b"
  else if n =? 12 then backslash +:+ "f"
  else if n =? 10 then backslash +:+ "n"
  else if n =? 13 then backslash +:+ "r"
  else if n =? 9 then backslash +:+ "t"
  else if (n <? 32) || (n =? 38) || (n =? 60) || (n =? 62)
  then backslash +:+ "u00" +:+ hexDigit (n / 16) +:+ hexDigit (n mod 16)
  else String c "".

Fixpoint escape (s : string) : string :=
  match s with
  | "" => ""
  | String c rest => escapeByte c +:+ escape rest
  end.

Definition quote (s : string) : string := Str.dquote +:+ escape s +:+ Str.dquote.

(** Keys in increasing byte order (an insertion sort on the encoded fields). *)
Fixpoint insertField (f : string * string) (l : list (string * string))
  : list (string * string) :=
  match l with
  | [] => [f]
  | g :: l' => if String.leb f.1 g.1 then f :: g :: l' else g :: insertField f l'
  end.

Definition sortFields (l : list (string * string)) : list (string * string) :=
  foldr insertField [] l.

Fixpoint joinFields (l : list (string * string)) : string :=
  match l with
  | [] => ""
  | [f] => quote f.1 +:+ ":" +:+ f.2
  | f :: l' => quote f.1 +:+ ":" +:+ f.2 +:+ "," +:+ joinFields l'
  end.

Fixpoint Marshal (v : Value) : string :=
  match v with
  | Null => "null"
  | Bool true => "true"
  | Bool false => "false"
  | Text s => quote s
  | Map fields =>
      "{" +:+ joinFields
                (sortFields (map (λ kv, match kv with (k, x) => (k, Marshal x) end) fields))
          +:+ "}"
  end.

End json.

(** ** Ranging over a Go map

    The order in which [for k, v := range m] visits a map is not specified
    and may differ from one loop to the next.  [range seed m] is one such
    visit: the keys of [seed] first, in that order, then whatever [seed] left
    out.  Every [seed] gives a permutation of the entries and every
    permutation is given by some [seed], so a statement for all seeds is a
    statement for every order Go may choose. *)
Definition range {V : Type} (seed : list string) (m : gmap string V)
  : list (string * V) :=
  let ks := remove_dups seed in
  omap (λ k, (k,.) <$> m !! k) ks
  ++ filter (λ kv, kv.1 ∉ ks) (map_to_list m).

(** Go's conversion [int32(x)] of an [int]: the low 32 bits, signed. *)
Definition int32 (x : Z) : Z := ((x + 2 ^ 31) mod 2 ^ 32 - 2 ^ 31)%Z.

(** Go's [error] values, as far as [Start] tells them apart. *)
Inductive error :=
  | io_EOF
  | TransportError (msg : string).

(** What a call that can panic yields. *)
Inductive result (A : Type) :=
  | Done (a : A)
  | Panic.
Arguments Done {A} a.
Arguments Panic {A}.

(** ** The wire messages (package pb) *)

(** Modelled from the spec: the generated protobuf package [pb] is not among
    the sources.  The records of this part hold the fields that plugin.go
    reads and writes, under the names it uses; the spec (sections 3 and 6)
    lists the same payload kinds and registration fields. *)
Record pb_Event := {
  pb_Event_Type : string;
  pb_Event_Data : gmap string string;
  pb_Event_Sync : bool }.

Record pb_EventResponse := {
  pb_EventResponse_Allow : bool;
  pb_EventResponse_Message : string }.

Record pb_HTTPRequest := {
  pb_HTTPRequest_Method : string;
  pb_HTTPRequest_Path : string;
  pb_HTTPRequest_Headers : gmap string string;
  pb_HTTPRequest_Query : gmap string string;
  pb_HTTPRequest_Body : string;
  pb_HTTPRequest_UserId : string }.

Record pb_HTTPResponse := {
  pb_HTTPResponse_Status : Z;
  pb_HTTPResponse_Headers : gmap string string;
  pb_HTTPResponse_Body : string }.

Record pb_ScheduleRequest := { pb_ScheduleRequest_ScheduleId : string }.

Record pb_MixinRequest := {
  pb_MixinRequest_Target : string;
  pb_MixinRequest_RequestId : string;
  pb_MixinRequest_Input : string;
  pb_MixinRequest_ChainData : string }.

Record pb_Notification := {
  pb_Notification_Title : string;
  pb_Notification_Message : string;
  pb_Notification_Type : string }.

Record pb_MixinResponse := {
  pb_MixinResponse_Action : Z;
  pb_MixinResponse_Output : string;
  pb_MixinResponse_Error : string;
  pb_MixinResponse_ModifiedInput : string;
  pb_MixinResponse_Notifications : list pb_Notification }.

Record pb_AddonTypeRequest := {
  pb_AddonTypeRequest_TypeId : string;
  pb_AddonTypeRequest_ServerId : string;
  pb_AddonTypeRequest_NodeId : string;
  pb_AddonTypeRequest_DownloadUrl : string;
  pb_AddonTypeRequest_FileName : string;
  pb_AddonTypeRequest_InstallPath : string;
  pb_AddonTypeRequest_SourceInfo : gmap string string;
  pb_AddonTypeRequest_ServerVariables : gmap string string }.

Record pb_AddonInstallAction := {
  pb_AddonInstallAction_Type : Z;
  pb_AddonInstallAction_Url : string;
  pb_AddonInstallAction_Path : string;
  pb_AddonInstallAction_Content : string;
  pb_AddonInstallAction_Command : string;
  pb_AddonInstallAction_Headers : gmap string string;
  pb_AddonInstallAction_NodePayload : string;
  pb_AddonInstallAction_NodeEndpoint : string }.

Record pb_AddonTypeResponse := {
  pb_AddonTypeResponse_Success : bool;
  pb_AddonTypeResponse_Error : string;
  pb_AddonTypeResponse_Message : string;
  pb_AddonTypeResponse_Actions : list pb_AddonInstallAction }.

Record pb_RateLimitConfig := {
  pb_RateLimitConfig_Preset : string;
  pb_RateLimitConfig_RequestsPerMinute : Z;
  pb_RateLimitConfig_BurstLimit : Z }.

Record pb_RouteInfo := {
  pb_RouteInfo_Method : string;
  pb_RouteInfo_Path : string;
  pb_RouteInfo_RateLimit : option pb_RateLimitConfig }.

Record pb_ScheduleInfo := { pb_ScheduleInfo_Id : string; pb_ScheduleInfo_Cron : string }.
Record pb_MixinInfo := { pb_MixinInfo_Target : string; pb_MixinInfo_Priority : Z }.
Record pb_AddonTypeInfo := { pb_AddonTypeInfo_TypeId : string }.
Record pb_LogRequest := { pb_LogRequest_Level : string; pb_LogRequest_Message : string }.

(** ** What the engine takes from its surroundings

    - [W]: the program state outside the plugin that handler closures read
      and write.  The registry itself is built before [Start] and only read
      during dispatch.
    - [Doc]: Go values of type [map[string]interface{}] (decoded JSON
      documents, and the documents a mixin handler returns), with the
      library's codec on them: [json_Unmarshal b] is what
      [json.Unmarshal(b, &m)] leaves in a nil map [m] ([None]: the map stays
      nil, on an error or on [null]), and [json_MarshalDoc d] the bytes of
      [json.Marshal(d)] (none on an error, which the callers ignore).
    - [pb_PluginUIInfo]: what [UIBuilder.build] returns (ui.go), which the
      engine only forwards; [newUIBuilder] is the descriptor of a fresh
      builder.
    - [filepath_Join]: [filepath.Join] on two elements.
    - [pb_MixinResponse_NEXT]: the wire value of [pb.MixinResponse_NEXT]. *)
Class Host := {
  W : Type;
  Doc : Type;
  json_Unmarshal : string → option Doc;
  json_MarshalDoc : Doc → string;
  pb_PluginUIInfo : Type;
  newUIBuilder : pb_PluginUIInfo;
  filepath_Join : string → string → string;
  pb_MixinResponse_NEXT : Z }.

Section Engine.
Context `{Host}.

Record pb_PluginInfo := {
  pb_PluginInfo_Id : string;
  pb_PluginInfo_Name : string;
  pb_PluginInfo_Version : string;
  pb_PluginInfo_Events : list string;
  pb_PluginInfo_Routes : list pb_RouteInfo;
  pb_PluginInfo_Schedules : list pb_ScheduleInfo;
  pb_PluginInfo_Mixins : list pb_MixinInfo;
  pb_PluginInfo_AddonTypes : list pb_AddonTypeInfo;
  pb_PluginInfo_Ui : pb_PluginUIInfo }.

(** Modelled from the spec: the payloads of [pb.PluginMessage] (declared in
    the protobuf package), namely those that plugin.go builds. *)
Inductive pb_PluginPayload :=
  | PluginMessage_Register (info : pb_PluginInfo)
  | PluginMessage_EventResponse (r : pb_EventResponse)
  | PluginMessage_HttpResponse (r : pb_HTTPResponse)
  | PluginMessage_ScheduleResponse
  | PluginMessage_MixinResponse (r : pb_MixinResponse)
  | PluginMessage_AddonTypeResponse (r : pb_AddonTypeResponse).

Record pb_PluginMessage := {
  pb_PluginMessage_RequestId : string;
  pb_PluginMessage_Payload : pb_PluginPayload }.

(** Modelled from the spec: the payloads of [pb.PanelMessage] (declared in
    the protobuf package): the cases of the type switch in [handleMessage],
    the acknowledgement read by [GetRegistered], and [PanelMessage_Other]
    for every other payload, or none. *)
Inductive pb_PanelPayload :=
  | PanelMessage_Registered
  | PanelMessage_Event (ev : pb_Event)
  | PanelMessage_Http (req : pb_HTTPRequest)
  | PanelMessage_Schedule (req : pb_ScheduleRequest)
  | PanelMessage_Mixin (req : pb_MixinRequest)
  | PanelMessage_AddonType (req : pb_AddonTypeRequest)
  | PanelMessage_Shutdown
  | PanelMessage_Other.

Record pb_PanelMessage := {
  pb_PanelMessage_RequestId : string;
  pb_PanelMessage_Payload : pb_PanelPayload }.

(** ** types.go *)

Record Event := {
  Event_Type : string;
  Event_Data : gmap string string;
  Event_Sync : bool }.

Record EventResult := {
  EventResult_allow : bool;
  EventResult_message : string }.

Definition Allow : EventResult :=
  {| EventResult_allow := true; EventResult_message := "" |}.

Definition Block (message : string) : EventResult :=
  {| EventResult_allow := false; EventResult_message := message |}.

Record Request := {
  Request_Method : string;
  Request_Path : string;
  Request_Headers : gmap string string;
  Request_Query : gmap string string;
  Request_Body : option Doc;
  Request_RawBody : string;
  Request_UserID : string }.

Record Response := {
  Response_Status : Z;
  Response_Headers : gmap string string;
  Response_body : string }.

Definition Error (status : Z) (msg : string) : Response :=
  {| Response_Status := status;
     Response_Headers := {[ "Content-Type" := "application/json" ]};
     Response_body :=
       json.Marshal (json.Map [("success", json.Bool false); ("error", json.Text msg)]) |}.

Definition JSON (data : json.Value) : Response :=
  {| Response_Status := 200;
     Response_Headers := {[ "Content-Type" := "application/json" ]};
     Response_body :=
       json.Marshal (json.Map [("success", json.Bool true); ("data", data)]) |}.

Definition Text (text : string) : Response :=
  {| Response_Status := 200;
     Response_Headers := {[ "Content-Type" := "text/plain" ]};
     Response_body := text |}.

Definition WithStatus (r : Response) (status : Z) : Response :=
  {| Response_Status := status;
     Response_Headers := Response_Headers r;
     Response_body := Response_body r |}.

Definition WithHeader (r : Response) (key value : string) : Response :=
  {| Response_Status := Response_Status r;
     Response_Headers := <[key := value]> (Response_Headers r);
     Response_body := Response_body r |}.

Record AddonInstallAction := {
  AddonInstallAction_Type : Z;
  AddonInstallAction_URL : string;
  AddonInstallAction_Path : string;
  AddonInstallAction_Content : string;
  AddonInstallAction_Command : string;
  AddonInstallAction_Headers : gmap string string;
  AddonInstallAction_NodePayload : string;
  AddonInstallAction_NodeEndpoint : string }.

Record AddonTypeRequest := {
  AddonTypeRequest_TypeID : string;
  AddonTypeRequest_ServerID : string;
  AddonTypeRequest_NodeID : string;
  AddonTypeRequest_DownloadURL : string;
  AddonTypeRequest_FileName : string;
  AddonTypeRequest_InstallPath : string;
  AddonTypeRequest_SourceInfo : gmap string string;
  AddonTypeRequest_ServerVariables : gmap string string }.

Record AddonTypeResponse := {
  AddonTypeResponse_Success : bool;
  AddonTypeResponse_Error : string;
  AddonTypeResponse_Message : string;
  AddonTypeResponse_Actions : list AddonInstallAction }.

Definition ActionDownloadFile : Z := 0.
Definition ActionExtractArchive : Z := 1.
Definition ActionDeleteFile : Z := 2.
Definition ActionCreateFolder : Z := 3.
Definition ActionWriteFile : Z := 4.
Definition ActionRunCommand : Z := 5.
Definition ActionProxyToNode : Z := 6.

Definition AddonSuccess (message : string) (actions : list AddonInstallAction)
  : AddonTypeResponse :=
  {| AddonTypeResponse_Success := true; AddonTypeResponse_Error := "";
     AddonTypeResponse_Message := message; AddonTypeResponse_Actions := actions |}.

Definition AddonError (err : string) : AddonTypeResponse :=
  {| AddonTypeResponse_Success := false; AddonTypeResponse_Error := err;
     AddonTypeResponse_Message := ""; AddonTypeResponse_Actions := [] |}.

(** ** The mixin types

    Modelled from the spec: the declarations of [MixinContext],
    [MixinResult], [MixinHandler] and [MixinRegistration] are in a file that
    is not among the sources.  The fields are the ones [handleMixin] and
    [MixinWithPriority] read and write; the spec (section 3) gives the
    context as target name, correlation id, input map and chain-data map,
    and the result as action verdict, optional output map, optional
    modified-input map, optional error text and a list of notifications,
    the verdict being passed through unchanged. *)
Record MixinNotification := {
  MixinNotification_Title : string;
  MixinNotification_Message : string;
  MixinNotification_Type : string }.

Record MixinContext := {
  MixinContext_Target : string;
  MixinContext_RequestID : string;
  MixinContext_input : option Doc;
  MixinContext_chainData : option Doc }.

Record MixinResult := {
  MixinResult_action : Z;
  MixinResult_output : option Doc;
  MixinResult_err : string;
  MixinResult_modifiedInput : option Doc;
  MixinResult_notifications : list MixinNotification }.

(** ** plugin.go: the registry *)

(** Handlers are Go closures: they return a value and may change the
    program state [W].  A Go func value may be nil, so the registry holds
    [option]s, [None] being nil. *)
Definition EventHandler : Type := Event → W → EventResult * W.
Definition RouteHandler : Type := Request → W → Response * W.
Definition ScheduleHandler : Type := W → W.
Definition AddonTypeHandler : Type := AddonTypeRequest → W → AddonTypeResponse * W.
Definition MixinHandler : Type := MixinContext → W → MixinResult * W.

Record MixinRegistration := {
  MixinRegistration_Target : string;
  MixinRegistration_Priority : Z;
  MixinRegistration_Handler : option MixinHandler }.

(** [p.routes] holds pointers, and a [RouteBuilder] keeps the pointer of the
    route it was returned for.  [RouteConfig_addr] is that pointer: [Route]
    gives each config a fresh one, and the builder's setters write to the
    config of that address if the map still holds it. *)
Record RouteConfig := {
  RouteConfig_addr : nat;
  RouteConfig_Method : string;
  RouteConfig_Path : string;
  RouteConfig_Handler : option RouteHandler;
  RouteConfig_RateLimitPreset : string;
  RouteConfig_RateLimitRPM : Z;
  RouteConfig_RateLimitBurst : Z }.

Definition PresetRead : string := "read".
Definition PresetWrite : string := "write".
Definition PresetStrict : string := "strict".

Record RouteBuilder := { RouteBuilder_config : nat }.

(** A [chan *pb.PanelMessage]: the values sent and not yet received, and
    whether the channel was closed.  A receive on it blocks exactly when
    nothing is queued and it is open. *)
Record Chan := {
  Chan_queue : list (option pb_PanelMessage);
  Chan_closed : bool }.

(** The [Plugin] struct.  The transport handles ([panel], [conn], [api],
    [asyncApi]) are set by [Start] and not read by the code embedded here;
    [ui] is held as the descriptor it builds.  [Plugin_allocs] is not a Go
    field: it counts the route configs allocated so far. *)
Record Plugin := {
  Plugin_id : string;
  Plugin_name : string;
  Plugin_version : string;
  Plugin_events : gmap string (option EventHandler);
  Plugin_routes : gmap string RouteConfig;
  Plugin_schedule : gmap string (option ScheduleHandler);
  Plugin_mixins : list MixinRegistration;
  Plugin_addonTypes : gmap string (option AddonTypeHandler);
  Plugin_dataDir : string;
  Plugin_useDataDir : bool;
  Plugin_onStart : option (W → W);
  Plugin_pending : gmap string Chan;
  Plugin_ui : pb_PluginUIInfo;
  Plugin_allocs : nat }.

(** Assignments to one field of [*p]. *)
Definition set_name (v : string) (p : Plugin) : Plugin :=
  {| Plugin_id := Plugin_id p;
     Plugin_name := v;
     Plugin_version := Plugin_version p;
     Plugin_events := Plugin_events p;
     Plugin_routes := Plugin_routes p;
     Plugin_schedule := Plugin_schedule p;
     Plugin_mixins := Plugin_mixins p;
     Plugin_addonTypes := Plugin_addonTypes p;
     Plugin_dataDir := Plugin_dataDir p;
     Plugin_useDataDir := Plugin_useDataDir p;
     Plugin_onStart := Plugin_onStart p;
     Plugin_pending := Plugin_pending p;
     Plugin_ui := Plugin_ui p;
     Plugin_allocs := Plugin_allocs p |}.

Definition set_events (v : gmap string (option EventHandler)) (p : Plugin) : Plugin :=
  {| Plugin_id := Plugin_id p;
     Plugin_name := Plugin_name p;
     Plugin_version := Plugin_version p;
     Plugin_events := v;
     Plugin_routes := Plugin_routes p;
     Plugin_schedule := Plugin_schedule p;
     Plugin_mixins := Plugin_mixins p;
     Plugin_addonTypes := Plugin_addonTypes p;
     Plugin_dataDir := Plugin_dataDir p;
     Plugin_useDataDir := Plugin_useDataDir p;
     Plugin_onStart := Plugin_onStart p;
     Plugin_pending := Plugin_pending p;
     Plugin_ui := Plugin_ui p;
     Plugin_allocs := Plugin_allocs p |}.

Definition set_routes (v : gmap string RouteConfig) (p : Plugin) : Plugin :=
  {| Plugin_id := Plugin_id p;
     Plugin_name := Plugin_name p;
     Plugin_version := Plugin_version p;
     Plugin_events := Plugin_events p;
     Plugin_routes := v;
     Plugin_schedule := Plugin_schedule p;
     Plugin_mixins := Plugin_mixins p;
     Plugin_addonTypes := Plugin_addonTypes p;
     Plugin_dataDir := Plugin_dataDir p;
     Plugin_useDataDir := Plugin_useDataDir p;
     Plugin_onStart := Plugin_onStart p;
     Plugin_pending := Plugin_pending p;
     Plugin_ui := Plugin_ui p;
     Plugin_allocs := Plugin_allocs p |}.

Definition set_schedule (v : gmap string (option ScheduleHandler)) (p : Plugin) : Plugin :=
  {| Plugin_id := Plugin_id p;
     Plugin_name := Plugin_name p;
     Plugin_version := Plugin_version p;
     Plugin_events := Plugin_events p;
     Plugin_routes := Plugin_routes p;
     Plugin_schedule := v;
     Plugin_mixins := Plugin_mixins p;
     Plugin_addonTypes := Plugin_addonTypes p;
     Plugin_dataDir := Plugin_dataDir p;
     Plugin_useDataDir := Plugin_useDataDir p;
     Plugin_onStart := Plugin_onStart p;
     Plugin_pending := Plugin_pending p;
     Plugin_ui := Plugin_ui p;
     Plugin_allocs := Plugin_allocs p |}.

Definition set_mixins (v : list MixinRegistration) (p : Plugin) : Plugin :=
  {| Plugin_id := Plugin_id p;
     Plugin_name := Plugin_name p;
     Plugin_version := Plugin_version p;
     Plugin_events := Plugin_events p;
     Plugin_routes := Plugin_routes p;
     Plugin_schedule := Plugin_schedule p;
     Plugin_mixins := v;
     Plugin_addonTypes := Plugin_addonTypes p;
     Plugin_dataDir := Plugin_dataDir p;
     Plugin_useDataDir := Plugin_useDataDir p;
     Plugin_onStart := Plugin_onStart p;
     Plugin_pending := Plugin_pending p;
     Plugin_ui := Plugin_ui p;
     Plugin_allocs := Plugin_allocs p |}.

Definition set_addonTypes (v : gmap string (option AddonTypeHandler)) (p : Plugin) : Plugin :=
  {| Plugin_id := Plugin_id p;
     Plugin_name := Plugin_name p;
     Plugin_version := Plugin_version p;
     Plugin_events := Plugin_events p;
     Plugin_routes := Plugin_routes p;
     Plugin_schedule := Plugin_schedule p;
     Plugin_mixins := Plugin_mixins p;
     Plugin_addonTypes := v;
     Plugin_dataDir := Plugin_dataDir p;
     Plugin_useDataDir := Plugin_useDataDir p;
     Plugin_onStart := Plugin_onStart p;
     Plugin_pending := Plugin_pending p;
     Plugin_ui := Plugin_ui p;
     Plugin_allocs := Plugin_allocs p |}.

Definition set_dataDir (v : string) (p : Plugin) : Plugin :=
  {| Plugin_id := Plugin_id p;
     Plugin_name := Plugin_name p;
     Plugin_version := Plugin_version p;
     Plugin_events := Plugin_events p;
     Plugin_routes := Plugin_routes p;
     Plugin_schedule := Plugin_schedule p;
     Plugin_mixins := Plugin_mixins p;
     Plugin_addonTypes := Plugin_addonTypes p;
     Plugin_dataDir := v;
     Plugin_useDataDir := Plugin_useDataDir p;
     Plugin_onStart := Plugin_onStart p;
     Plugin_pending := Plugin_pending p;
     Plugin_ui := Plugin_ui p;
     Plugin_allocs := Plugin_allocs p |}.

Definition set_useDataDir (v : bool) (p : Plugin) : Plugin :=
  {| Plugin_id := Plugin_id p;
     Plugin_name := Plugin_name p;
     Plugin_version := Plugin_version p;
     Plugin_events := Plugin_events p;
     Plugin_routes := Plugin_routes p;
     Plugin_schedule := Plugin_schedule p;
     Plugin_mixins := Plugin_mixins p;
     Plugin_addonTypes := Plugin_addonTypes p;
     Plugin_dataDir := Plugin_dataDir p;
     Plugin_useDataDir := v;
     Plugin_onStart := Plugin_onStart p;
     Plugin_pending := Plugin_pending p;
     Plugin_ui := Plugin_ui p;
     Plugin_allocs := Plugin_allocs p |}.

Definition set_onStart (v : option (W → W)) (p : Plugin) : Plugin :=
  {| Plugin_id := Plugin_id p;
     Plugin_name := Plugin_name p;
     Plugin_version := Plugin_version p;
     Plugin_events := Plugin_events p;
     Plugin_routes := Plugin_routes p;
     Plugin_schedule := Plugin_schedule p;
     Plugin_mixins := Plugin_mixins p;
     Plugin_addonTypes := Plugin_addonTypes p;
     Plugin_dataDir := Plugin_dataDir p;
     Plugin_useDataDir := Plugin_useDataDir p;
     Plugin_onStart := v;
     Plugin_pending := Plugin_pending p;
     Plugin_ui := Plugin_ui p;
     Plugin_allocs := Plugin_allocs p |}.

Definition set_allocs (v : nat) (p : Plugin) : Plugin :=
  {| Plugin_id := Plugin_id p;
     Plugin_name := Plugin_name p;
     Plugin_version := Plugin_version p;
     Plugin_events := Plugin_events p;
     Plugin_routes := Plugin_routes p;
     Plugin_schedule := Plugin_schedule p;
     Plugin_mixins := Plugin_mixins p;
     Plugin_addonTypes := Plugin_addonTypes p;
     Plugin_dataDir := Plugin_dataDir p;
     Plugin_useDataDir := Plugin_useDataDir p;
     Plugin_onStart := Plugin_onStart p;
     Plugin_pending := Plugin_pending p;
     Plugin_ui := Plugin_ui p;
     Plugin_allocs := v |}.

Definition New (id version : string) : Plugin :=
  {| Plugin_id := id;
     Plugin_name := id;
     Plugin_version := version;
     Plugin_events := ∅;
     Plugin_routes := ∅;
     Plugin_schedule := ∅;
     Plugin_mixins := [];
     Plugin_addonTypes := ∅;
     Plugin_dataDir := "";
     Plugin_useDataDir := false;
     Plugin_onStart := None;
     Plugin_pending := ∅;
     Plugin_ui := newUIBuilder;
     Plugin_allocs := 0 |}.

Definition SetName (name : string) (p : Plugin) : Plugin := set_name name p.

Definition UseDataDir (p : Plugin) : Plugin := set_useDataDir true p.

Definition OnStart (fn : option (W → W)) (p : Plugin) : Plugin := set_onStart fn p.

Definition OnEvent (eventType : string) (handler : option EventHandler) (p : Plugin)
  : Plugin :=
  set_events (<[eventType := handler]> (Plugin_events p)) p.

(** [Route] (plugin.go, lines 233-241): a new config, stored under
    [method+":"+path], and a builder that points to it. *)
Definition Route (method path : string) (handler : option RouteHandler) (p : Plugin)
  : Plugin * RouteBuilder :=
  let cfg := {| RouteConfig_addr := Plugin_allocs p;
                RouteConfig_Method := method;
                RouteConfig_Path := path;
                RouteConfig_Handler := handler;
                RouteConfig_RateLimitPreset := "";
                RouteConfig_RateLimitRPM := 0;
                RouteConfig_RateLimitBurst := 0 |} in
  (set_allocs (S (Plugin_allocs p))
     (set_routes (<[method +:+ ":" +:+ path := cfg]> (Plugin_routes p)) p),
   {| RouteBuilder_config := Plugin_allocs p |}).

(** A write through the pointer [a] to the config it points to. *)
Definition writeConfig (a : nat) (f : RouteConfig → RouteConfig) (p : Plugin) : Plugin :=
  set_routes ((λ c, if RouteConfig_addr c =? a then f c else c) <$> Plugin_routes p) p.

Definition RateLimit (rb : RouteBuilder) (requestsPerMinute burstLimit : Z) (p : Plugin)
  : Plugin * RouteBuilder :=
  (writeConfig (RouteBuilder_config rb)
     (λ c, {| RouteConfig_addr := RouteConfig_addr c;
              RouteConfig_Method := RouteConfig_Method c;
              RouteConfig_Path := RouteConfig_Path c;
              RouteConfig_Handler := RouteConfig_Handler c;
              RouteConfig_RateLimitPreset := RouteConfig_RateLimitPreset c;
              RouteConfig_RateLimitRPM := requestsPerMinute;
              RouteConfig_RateLimitBurst := burstLimit |}) p, rb).

Definition RateLimitPreset (rb : RouteBuilder) (preset : string) (p : Plugin)
  : Plugin * RouteBuilder :=
  (writeConfig (RouteBuilder_config rb)
     (λ c, {| RouteConfig_addr := RouteConfig_addr c;
              RouteConfig_Method := RouteConfig_Method c;
              RouteConfig_Path := RouteConfig_Path c;
              RouteConfig_Handler := RouteConfig_Handler c;
              RouteConfig_RateLimitPreset := preset;
              RouteConfig_RateLimitRPM := RouteConfig_RateLimitRPM c;
              RouteConfig_RateLimitBurst := RouteConfig_RateLimitBurst c |}) p, rb).

(** [Schedule] (plugin.go, lines 258-261). *)
Definition Schedule (id cron : string) (handler : option ScheduleHandler) (p : Plugin)
  : Plugin :=
  set_schedule (<[id +:+ ":" +:+ cron := handler]> (Plugin_schedule p)) p.

(** [MixinWithPriority] (plugin.go, lines 267-274). *)
Definition MixinWithPriority (target : string) (priority : Z)
    (handler : option MixinHandler) (p : Plugin) : Plugin :=
  set_mixins (Plugin_mixins p ++ [ {| MixinRegistration_Target := target;
                                      MixinRegistration_Priority := priority;
                                      MixinRegistration_Handler := handler |} ]) p.

Definition Mixin (target : string) (handler : option MixinHandler) (p : Plugin) : Plugin :=
  MixinWithPriority target 0 handler p.

Definition AddonType (typeID name description : string)
    (handler : option AddonTypeHandler) (p : Plugin) : Plugin :=
  set_addonTypes (<[typeID := handler]> (Plugin_addonTypes p)) p.

Definition DataDir (p : Plugin) : string := Plugin_dataDir p.

Definition DataPath (p : Plugin) (filename : string) : string :=
  filepath_Join (Plugin_dataDir p) filename.

(** ** plugin.go: dispatch *)

(** A reply as the [handle...] functions build it: [RequestId] is still the
    zero value; [handleMessage] fills it in. *)
Definition reply (payload : pb_PluginPayload) : pb_PluginMessage :=
  {| pb_PluginMessage_RequestId := ""; pb_PluginMessage_Payload := payload |}.

(** [handleEvent] (plugin.go, lines 467-474). *)
Definition handleEvent (p : Plugin) (ev : pb_Event) (w : W)
  : result (pb_PluginMessage * W) :=
  match Plugin_events p !! pb_Event_Type ev with
  | None =>
      Done (reply (PluginMessage_EventResponse
                     {| pb_EventResponse_Allow := true;
                        pb_EventResponse_Message := "" |}), w)
  | Some None => Panic
  | Some (Some handler) =>
      let '(res, w') := handler {| Event_Type := pb_Event_Type ev;
                                   Event_Data := pb_Event_Data ev;
                                   Event_Sync := pb_Event_Sync ev |} w in
      Done (reply (PluginMessage_EventResponse
                     {| pb_EventResponse_Allow := EventResult_allow res;
                        pb_EventResponse_Message := EventResult_message res |}), w')
  end.

(** [errorResponse] (plugin.go, lines 639-642). *)
Definition errorResponse (status : Z) (msg : string) : pb_HTTPResponse :=
  {| pb_HTTPResponse_Status := int32 status;
     pb_HTTPResponse_Headers := {[ "Content-Type" := "application/json" ]};
     pb_HTTPResponse_Body :=
       json.Marshal (json.Map [("success", json.Bool false); ("error", json.Text msg)]) |}.

(** The test of the scan in [handleHTTP] (line 480). *)
Definition routeApplies (req : pb_HTTPRequest) (c : RouteConfig) : bool :=
  (String.eqb (RouteConfig_Method c) "*"
   || String.eqb (RouteConfig_Method c) (pb_HTTPRequest_Method req))
  && matchPath (RouteConfig_Path c) (pb_HTTPRequest_Path req).

(** The choice of [cfg] in [handleHTTP] (lines 477-485): the map lookup and,
    when the key is absent, the first route of the range that applies. *)
Definition resolveRoute (seed : list string) (p : Plugin) (req : pb_HTTPRequest)
  : option RouteConfig :=
  match Plugin_routes p !! (pb_HTTPRequest_Method req +:+ ":" +:+ pb_HTTPRequest_Path req) with
  | Some cfg => Some cfg
  | None => List.find (routeApplies req) (range seed (Plugin_routes p)).*2
  end.

(** The call of the chosen route's handler (lines 490-507). *)
Definition serveRoute (cfg : RouteConfig) (req : pb_HTTPRequest) (w : W)
  : result (pb_PluginMessage * W) :=
  let body := json_Unmarshal (pb_HTTPRequest_Body req) in
  match RouteConfig_Handler cfg with
  | None => Panic
  | Some handler =>
      let '(resp, w') := handler {| Request_Method := pb_HTTPRequest_Method req;
                                    Request_Path := pb_HTTPRequest_Path req;
                                    Request_Headers := pb_HTTPRequest_Headers req;
                                    Request_Query := pb_HTTPRequest_Query req;
                                    Request_Body := body;
                                    Request_RawBody := pb_HTTPRequest_Body req;
                                    Request_UserID := pb_HTTPRequest_UserId req |} w in
      Done (reply (PluginMessage_HttpResponse
                     {| pb_HTTPResponse_Status := int32 (Response_Status resp);
                        pb_HTTPResponse_Headers := Response_Headers resp;
                        pb_HTTPResponse_Body := Response_body resp |}), w')
  end.

(** [handleHTTP] (plugin.go, lines 476-508). *)
Definition handleHTTP (seed : list string) (p : Plugin) (req : pb_HTTPRequest) (w : W)
  : result (pb_PluginMessage * W) :=
  match resolveRoute seed p req with
  | None => Done (reply (PluginMessage_HttpResponse (errorResponse 404 "not found")), w)
  | Some cfg => serveRoute cfg req w
  end.

(** [handleSchedule] (plugin.go, lines 510-519): the first key of the range
    whose part before the colon is the requested id has its handler run. *)
Definition handleSchedule (seed : list string) (p : Plugin) (req : pb_ScheduleRequest)
    (w : W) : result (pb_PluginMessage * W) :=
  match List.find (λ kv, String.eqb (splitKey kv.1).1 (pb_ScheduleRequest_ScheduleId req))
                  (range seed (Plugin_schedule p)) with
  | Some (_, Some handler) => Done (reply PluginMessage_ScheduleResponse, handler w)
  | Some (_, None) => Panic
  | None => Done (reply PluginMessage_ScheduleResponse, w)
  end.

(** The loop of [handleMixin] (lines 522-528). *)
Definition findMixin (p : Plugin) (target : string) : option MixinHandler :=
  match List.find (λ m, String.eqb (MixinRegistration_Target m) target) (Plugin_mixins p) with
  | Some m => MixinRegistration_Handler m
  | None => None
  end.

(** The call of a mixin handler and the translation of its result
    (lines 534-572). *)
Definition runMixin (handler : MixinHandler) (req : pb_MixinRequest) (w : W)
  : pb_PluginMessage * W :=
  let input := json_Unmarshal (pb_MixinRequest_Input req) in
  let chainData :=
    if 0 <? String.length (pb_MixinRequest_ChainData req)
    then json_Unmarshal (pb_MixinRequest_ChainData req) else None in
  let '(res, w') := handler {| MixinContext_Target := pb_MixinRequest_Target req;
                               MixinContext_RequestID := pb_MixinRequest_RequestId req;
                               MixinContext_input := input;
                               MixinContext_chainData := chainData |} w in
  (reply (PluginMessage_MixinResponse
            {| pb_MixinResponse_Action := MixinResult_action res;
               pb_MixinResponse_Output :=
                 match MixinResult_output res with
                 | Some d => json_MarshalDoc d | None => "" end;
               pb_MixinResponse_Error := MixinResult_err res;
               pb_MixinResponse_ModifiedInput :=
                 match MixinResult_modifiedInput res with
                 | Some d => json_MarshalDoc d | None => "" end;
               pb_MixinResponse_Notifications :=
                 map (λ n, {| pb_Notification_Title := MixinNotification_Title n;
                              pb_Notification_Message := MixinNotification_Message n;
                              pb_Notification_Type := MixinNotification_Type n |})
                     (MixinResult_notifications res) |}), w').

Definition mixinNext : pb_PluginMessage :=
  reply (PluginMessage_MixinResponse
           {| pb_MixinResponse_Action := pb_MixinResponse_NEXT;
              pb_MixinResponse_Output := "";
              pb_MixinResponse_Error := "";
              pb_MixinResponse_ModifiedInput := "";
              pb_MixinResponse_Notifications := [] |}).

(** [handleMixin] (plugin.go, lines 521-573). *)
Definition handleMixin (p : Plugin) (req : pb_MixinRequest) (w : W)
  : pb_PluginMessage * W :=
  match findMixin p (pb_MixinRequest_Target req) with
  | None => (mixinNext, w)
  | Some handler => runMixin handler req w
  end.

(** [handleAddonType] (plugin.go, lines 575-618). *)
Definition handleAddonType (p : Plugin) (req : pb_AddonTypeRequest) (w : W)
  : result (pb_PluginMessage * W) :=
  match Plugin_addonTypes p !! pb_AddonTypeRequest_TypeId req with
  | None =>
      Done (reply (PluginMessage_AddonTypeResponse
                     {| pb_AddonTypeResponse_Success := false;
                        pb_AddonTypeResponse_Error := "addon type handler not found";
                        pb_AddonTypeResponse_Message := "";
                        pb_AddonTypeResponse_Actions := [] |}), w)
  | Some None => Panic
  | Some (Some handler) =>
      let '(res, w') :=
        handler {| AddonTypeRequest_TypeID := pb_AddonTypeRequest_TypeId req;
                   AddonTypeRequest_ServerID := pb_AddonTypeRequest_ServerId req;
                   AddonTypeRequest_NodeID := pb_AddonTypeRequest_NodeId req;
                   AddonTypeRequest_DownloadURL := pb_AddonTypeRequest_DownloadUrl req;
                   AddonTypeRequest_FileName := pb_AddonTypeRequest_FileName req;
                   AddonTypeRequest_InstallPath := pb_AddonTypeRequest_InstallPath req;
                   AddonTypeRequest_SourceInfo := pb_AddonTypeRequest_SourceInfo req;
                   AddonTypeRequest_ServerVariables :=
                     pb_AddonTypeRequest_ServerVariables req |} w in
      Done (reply (PluginMessage_AddonTypeResponse
                     {| pb_AddonTypeResponse_Success := AddonTypeResponse_Success res;
                        pb_AddonTypeResponse_Error := AddonTypeResponse_Error res;
                        pb_AddonTypeResponse_Message := AddonTypeResponse_Message res;
                        pb_AddonTypeResponse_Actions :=
                          map (λ a,
                                 {| pb_AddonInstallAction_Type := AddonInstallAction_Type a;
                                    pb_AddonInstallAction_Url := AddonInstallAction_URL a;
                                    pb_AddonInstallAction_Path := AddonInstallAction_Path a;
                                    pb_AddonInstallAction_Content := AddonInstallAction_Content a;
                                    pb_AddonInstallAction_Command := AddonInstallAction_Command a;
                                    pb_AddonInstallAction_Headers := AddonInstallAction_Headers a;
                                    pb_AddonInstallAction_NodePayload :=
                                      AddonInstallAction_NodePayload a;
                                    pb_AddonInstallAction_NodeEndpoint :=
                                      AddonInstallAction_NodeEndpoint a |})
                              (AddonTypeResponse_Actions res) |}), w')
  end.

(** ** plugin.go: the connection *)

(** What the running plugin changes besides [*p]: the program state of the
    handlers, the envelopes written to the stream by [stream.Send], and the
    requests of the unary [Log] call. *)
Record Conn := {
  Conn_world : W;
  Conn_sent : list pb_PluginMessage;
  Conn_logged : list pb_LogRequest }.

(** How the handling of one message ends: the loop goes on, the process
    exits ([os.Exit]), or a nil handler was called. *)
Inductive Handled :=
  | Continue (c : Conn)
  | Exit (code : Z) (c : Conn)
  | Crash.

(** The end of [handleMessage] (lines 461-464): the reply gets the request id
    of the message and is sent; an error of [Send] is dropped. *)
Definition sendReply (c : Conn) (msg : pb_PanelMessage)
    (r : result (pb_PluginMessage * W)) : Handled :=
  match r with
  | Panic => Crash
  | Done (resp, w') =>
      Continue {| Conn_world := w';
                  Conn_sent := Conn_sent c ++
                    [ {| pb_PluginMessage_RequestId := pb_PanelMessage_RequestId msg;
                         pb_PluginMessage_Payload := pb_PluginMessage_Payload resp |} ];
                  Conn_logged := Conn_logged c |}
  end.

(** [handleMessage] (plugin.go, lines 440-465).  [seed] is the order of the
    map range that the handling of this message runs, if it runs one. *)
Definition handleMessage (seed : list string) (p : Plugin) (c : Conn)
    (msg : pb_PanelMessage) : Handled :=
  match pb_PanelMessage_Payload msg with
  | PanelMessage_Event ev => sendReply c msg (handleEvent p ev (Conn_world c))
  | PanelMessage_Http req => sendReply c msg (handleHTTP seed p req (Conn_world c))
  | PanelMessage_Schedule req => sendReply c msg (handleSchedule seed p req (Conn_world c))
  | PanelMessage_Mixin req => sendReply c msg (Done (handleMixin p req (Conn_world c)))
  | PanelMessage_AddonType req => sendReply c msg (handleAddonType p req (Conn_world c))
  | PanelMessage_Shutdown => Exit 0 c
  | PanelMessage_Registered | PanelMessage_Other => Continue c
  end.

(** [Log] (plugin.go, lines 293-296). *)
Definition Log (msg : string) (c : Conn) : Conn :=
  {| Conn_world := Conn_world c;
     Conn_sent := Conn_sent c;
     Conn_logged := Conn_logged c ++
       [ {| pb_LogRequest_Level := "info"; pb_LogRequest_Message := msg |} ] |}.

(** The orders of the four map ranges of [buildInfo]. *)
Record InfoSeeds := {
  seed_events : list string;
  seed_routes : list string;
  seed_schedule : list string;
  seed_addonTypes : list string }.

(** [buildInfo] (plugin.go, lines 392-438). *)
Definition buildInfo (seeds : InfoSeeds) (p : Plugin) : pb_PluginInfo :=
  {| pb_PluginInfo_Id := Plugin_id p;
     pb_PluginInfo_Name := Plugin_name p;
     pb_PluginInfo_Version := Plugin_version p;
     pb_PluginInfo_Events := (range (seed_events seeds) (Plugin_events p)).*1;
     pb_PluginInfo_Routes :=
       map (λ kv,
              let cfg := kv.2 in
              {| pb_RouteInfo_Method := RouteConfig_Method cfg;
                 pb_RouteInfo_Path := RouteConfig_Path cfg;
                 pb_RouteInfo_RateLimit :=
                   if negb (String.eqb (RouteConfig_RateLimitPreset cfg) "")
                      || (0 <? RouteConfig_RateLimitRPM cfg)%Z
                   then Some {| pb_RateLimitConfig_Preset := RouteConfig_RateLimitPreset cfg;
                                pb_RateLimitConfig_RequestsPerMinute :=
                                  int32 (RouteConfig_RateLimitRPM cfg);
                                pb_RateLimitConfig_BurstLimit :=
                                  int32 (RouteConfig_RateLimitBurst cfg) |}
                   else None |})
           (range (seed_routes seeds) (Plugin_routes p));
     pb_PluginInfo_Schedules :=
       map (λ kv, let '(id, cron) := splitKey kv.1 in
                  {| pb_ScheduleInfo_Id := id; pb_ScheduleInfo_Cron := cron |})
           (range (seed_schedule seeds) (Plugin_schedule p));
     pb_PluginInfo_Mixins :=
       map (λ m, {| pb_MixinInfo_Target := MixinRegistration_Target m;
                    pb_MixinInfo_Priority := int32 (MixinRegistration_Priority m) |})
           (Plugin_mixins p);
     pb_PluginInfo_AddonTypes :=
       map (λ kv, {| pb_AddonTypeInfo_TypeId := kv.1 |})
           (range (seed_addonTypes seeds) (Plugin_addonTypes p));
     pb_PluginInfo_Ui := Plugin_ui p |}.

(** One call of [stream.Recv]: a message, with the order of the map range
    run while it is handled, or an error ([io_EOF] at the end of the
    stream). *)
Inductive Recv :=
  | RecvMsg (msg : pb_PanelMessage) (seed : list string)
  | RecvErr (e : error).

(** What surrounds one run of [Start]: the process arguments, the results
    of opening the channel and the stream and of sending the registration,
    the orders of the ranges of [buildInfo], and what the successive calls
    of [Recv] return.  When the script of [Recv] results runs out, the next
    [Recv] does not return. *)
Record Env := {
  os_Args : list string;
  grpc_NewClient : option error;
  panel_Connect : option error;
  stream_SendRegister : option error;
  info_seeds : InfoSeeds;
  stream_Recv : list Recv }.

(** How [Start] ends: it returns an error, nil ([None]) or not; the process
    exits; a nil handler is called; or [Recv] blocks. *)
Inductive Outcome :=
  | Returned (err : option error)
  | Exited (code : Z)
  | Crashed
  | Blocked.

(** The receive loop of [Start] (plugin.go, lines 378-389). *)
Fixpoint recvLoop (p : Plugin) (script : list Recv) (c : Conn) : Outcome * Conn :=
  match script with
  | [] => (Blocked, c)
  | RecvErr io_EOF :: _ => (Returned None, c)
  | RecvErr e :: _ => (Returned (Some e), c)
  | RecvMsg msg seed :: script' =>
      match handleMessage seed p c msg with
      | Continue c' => recvLoop p script' c'
      | Exit code c' => (Exited code, c')
      | Crash => (Crashed, c)
      end
  end.

(** The data directory that [Start] computes from the process arguments
    (plugin.go, lines 326-330). *)
Definition startDataDir (env : Env) (p : Plugin) : string :=
  if 2 <? length (os_Args env)
  then filepath_Join (nth 2 (os_Args env) "") (Plugin_id p +:+ "_data")
  else Plugin_id p +:+ "_data".

(** [Start] (plugin.go, lines 322-390).  The diagnostics written with
    [log.Printf] and the directory made by [os.MkdirAll] (whose failure is
    only logged) are left out; the address given to [grpc.NewClient] plays no
    part, the result of the call being given by [env]. *)
Definition Start (env : Env) (p : Plugin) (panelAddr : string) (w : W)
  : Outcome * Plugin * Conn :=
  let p := set_dataDir (startDataDir env p) p in
  let c := {| Conn_world := w; Conn_sent := []; Conn_logged := [] |} in
  match grpc_NewClient env with
  | Some err => (Returned (Some err), p, c)
  | None =>
  match panel_Connect env with
  | Some err => (Returned (Some err), p, c)
  | None =>
  let info := buildInfo (info_seeds env) p in
  match stream_SendRegister env with
  | Some err => (Returned (Some err), p, c)
  | None =>
  let c := {| Conn_world := w;
              Conn_sent := [reply (PluginMessage_Register info)];
              Conn_logged := [] |} in
  match stream_Recv env with
  | [] => (Blocked, p, c)
  | RecvErr err :: _ => (Returned (Some err), p, c)
  | RecvMsg msg _ :: script =>
      match pb_PanelMessage_Payload msg with
      | PanelMessage_Registered =>
          let c := match Plugin_onStart p with
                   | Some fn => {| Conn_world := fn (Conn_world c);
                                   Conn_sent := Conn_sent c;
                                   Conn_logged := Conn_logged c |}
                   | None => c
                   end in
          let c := Log (Plugin_name p +:+ " v" +:+ Plugin_version p +:+ " started") c in
          let '(out, c') := recvLoop p script c in (out, p, c')
      | _ =>
          (* [return err], where [err] is the nil error of the [Recv] above *)
          (Returned None, p, c)
      end
  end end end end.

(** ** States of the registry

    [built p]: [p] is what [New] returned after some calls of the builder
    methods (and of [Start], which sets the data directory). *)
Inductive built : Plugin → Prop :=
  | built_New id version : built (New id version)
  | built_SetName name p : built p → built (SetName name p)
  | built_UseDataDir p : built p → built (UseDataDir p)
  | built_OnStart fn p : built p → built (OnStart fn p)
  | built_OnEvent eventType handler p : built p → built (OnEvent eventType handler p)
  | built_Route method path handler p : built p → built (Route method path handler p).1
  | built_RateLimit rb rpm burst p : built p → built (RateLimit rb rpm burst p).1
  | built_RateLimitPreset rb preset p : built p → built (RateLimitPreset rb preset p).1
  | built_Schedule id cron handler p : built p → built (Schedule id cron handler p)
  | built_MixinWithPriority target priority handler p :
      built p → built (MixinWithPriority target priority handler p)
  | built_AddonType typeID name description handler p :
      built p → built (AddonType typeID name description handler p)
  | built_dataDir dir p : built p → built (set_dataDir dir p).

(** A run of [MixinWithPriority] calls, one per registration, in order. *)
Definition registerMixins (regs : list MixinRegistration) (p : Plugin) : Plugin :=
  foldl (λ p r, MixinWithPriority (MixinRegistration_Target r)
                                  (MixinRegistration_Priority r)
                                  (MixinRegistration_Handler r) p) p regs.

(** A receive on the channel would block: nothing is queued and it is open. *)
Definition Chan_waiting (ch : Chan) : bool :=
  match Chan_queue ch with
  | [] => negb (Chan_closed ch)
  | _ :: _ => false
  end.

(** What [handleSchedule] does once it has picked an entry of the map. *)
Definition runSchedule (handler : option ScheduleHandler) (w : W)
  : result (pb_PluginMessage * W) :=
  match handler with
  | Some h => Done (reply PluginMessage_ScheduleResponse, h w)
  | None => Panic
  end.

End Engine.

(** The body of the 404 reply as the spec (section 8) writes it, and as
    [errorResponse 404 "not found"] encodes it. *)
Definition notFoundBody_spec : string :=
  "{" +:+ Str.dquote +:+ "success" +:+ Str.dquote +:+ ":false,"
      +:+ Str.dquote +:+ "error" +:+ Str.dquote +:+ ":"
      +:+ Str.dquote +:+ "not found" +:+ Str.dquote +:+ "}".

Definition notFoundBody : string :=
  "{" +:+ Str.dquote +:+ "error" +:+ Str.dquote +:+ ":"
      +:+ Str.dquote +:+ "not found" +:+ Str.dquote +:+ ","
      +:+ Str.dquote +:+ "success" +:+ Str.dquote +:+ ":false}".

(** ** A sample plugin

    The program state is the list of the handlers that ran, in order. *)
Module Demo.

Definition host : Host :=
  {| W := list string;
     Doc := string;
     json_Unmarshal := λ b, if String.eqb b "" then None else Some b;
     json_MarshalDoc := λ d, d;
     pb_PluginUIInfo := unit;
     newUIBuilder := tt;
     filepath_Join := λ a b, a +:+ "/" +:+ b;
     pb_MixinResponse_NEXT := 0%Z |}.

#[local] Existing Instance host.

Definition ran (name : string) (w : list string) : list string := w ++ [name].

Definition route (name : string) : option RouteHandler :=
  Some (λ _ w, (Text name, ran name w)).

Definition job (name : string) : option ScheduleHandler :=
  Some (ran name).

Definition mixin (name : string) : option MixinHandler :=
  Some (λ _ w, ({| MixinResult_action := 1%Z;
                   MixinResult_output := None;
                   MixinResult_err := name;
                   MixinResult_modifiedInput := None;
                   MixinResult_notifications := [] |}, ran name w)).

Definition onEvent (name : string) : option EventHandler :=
  Some (λ _ w, (Block name, ran name w)).

Definition fresh : Plugin := New "shop" "1.0".

(** The registry of the end-to-end scenario of the spec (section 8). *)
Definition shop : Plugin :=
  (Route "GET" "/items/*" (route "list")
     (Route "POST" "/items" (route "create") fresh).1).1.

(** Two wildcard routes that both match [GET /items/42]. *)
Definition overlapping : Plugin :=
  (Route "GET" "/*" (route "any")
     (Route "GET" "/items/*" (route "items") fresh).1).1.

Definition http (method path : string) : pb_HTTPRequest :=
  {| pb_HTTPRequest_Method := method;
     pb_HTTPRequest_Path := path;
     pb_HTTPRequest_Headers := ∅;
     pb_HTTPRequest_Query := ∅;
     pb_HTTPRequest_Body := "";
     pb_HTTPRequest_UserId := "" |}.

(** Two jobs: one under the id [backup], one under the id [backup:full]. *)
Definition jobs : Plugin :=
  Schedule "backup:full" "@weekly" (job "full")
    (Schedule "backup" "@daily" (job "daily") fresh).

Definition mixed : Plugin :=
  MixinWithPriority "server.create" 10 (mixin "second")
    (MixinWithPriority "server.create" 5 (mixin "first")
       (OnEvent "server.start" (onEvent "start") fresh)).

(** A plugin with one outbound call still waiting for its reply. *)
Definition calling : Plugin :=
  {| Plugin_id := "shop"; Plugin_name := "shop"; Plugin_version := "1.0";
     Plugin_events := ∅; Plugin_routes := ∅; Plugin_schedule := ∅;
     Plugin_mixins := []; Plugin_addonTypes := ∅;
     Plugin_dataDir := ""; Plugin_useDataDir := false; Plugin_onStart := None;
     Plugin_pending := {[ "call-1" := {| Chan_queue := []; Chan_closed := false |} ]};
     Plugin_ui := tt; Plugin_allocs := 0 |}.

Definition seeds : InfoSeeds :=
  {| seed_events := []; seed_routes := []; seed_schedule := []; seed_addonTypes := [] |}.

(** The panel accepts the stream and answers with what [script] holds. *)
Definition panel (script : list Recv) : Env :=
  {| os_Args := ["plugin"];
     grpc_NewClient := None;
     panel_Connect := None;
     stream_SendRegister := None;
     info_seeds := seeds;
     stream_Recv := script |}.

Definition message (id : string) (payload : pb_PanelPayload) : pb_PanelMessage :=
  {| pb_PanelMessage_RequestId := id; pb_PanelMessage_Payload := payload |}.

(** The shop with a wildcard route for every method over the same prefix. *)
Definition catalog : Plugin :=
  (Route "*" "/items*" (route "fallback") shop).1.

(** The jobs with one more, under an id that no other key starts with. *)
Definition nightly : Plugin :=
  Schedule "report" "@daily" (job "report") jobs.

Definition login : pb_Event :=
  {| pb_Event_Type := "user.login"; pb_Event_Data := ∅; pb_Event_Sync := true |}.

Definition create : pb_MixinRequest :=
  {| pb_MixinRequest_Target := "server.create";
     pb_MixinRequest_RequestId := "m-1";
     pb_MixinRequest_Input := "";
     pb_MixinRequest_ChainData := "" |}.

Definition trigger (id : string) : pb_ScheduleRequest :=
  {| pb_ScheduleRequest_ScheduleId := id |}.

(** The shop with a route for every method and every path. *)
Definition fallback : Plugin :=
  (Route "*" "*" (route "any") shop).1.

Definition anyRoute : RouteConfig :=
  {| RouteConfig_addr := 2;
     RouteConfig_Method := "*"; RouteConfig_Path := "*";
     RouteConfig_Handler := route "any"; RouteConfig_RateLimitPreset := "";
     RouteConfig_RateLimitRPM := 0; RouteConfig_RateLimitBurst := 0 |}.

Definition listRoute : RouteConfig :=
  {| RouteConfig_addr := 1;
     RouteConfig_Method := "GET"; RouteConfig_Path := "/items/*";
     RouteConfig_Handler := route "list"; RouteConfig_RateLimitPreset := "";
     RouteConfig_RateLimitRPM := 0; RouteConfig_RateLimitBurst := 0 |}.

Definition delete : pb_MixinRequest :=
  {| pb_MixinRequest_Target := "server.delete";
     pb_MixinRequest_RequestId := "m-2";
     pb_MixinRequest_Input := "";
     pb_MixinRequest_ChainData := "" |}.

(** A connection on which nothing has been sent yet. *)
Definition idle : Conn :=
  {| Conn_world := ([] : list string); Conn_sent := []; Conn_logged := [] |}.

End Demo.

(** * More of the code *)

(** ** types.go: the install actions *)

Definition DownloadFile (url path : string) (headers : gmap string string)
  : AddonInstallAction :=
  {| AddonInstallAction_Type := ActionDownloadFile;
     AddonInstallAction_URL := url;
     AddonInstallAction_Path := path;
     AddonInstallAction_Content := "";
     AddonInstallAction_Command := "";
     AddonInstallAction_Headers := headers;
     AddonInstallAction_NodePayload := "";
     AddonInstallAction_NodeEndpoint := "" |}.

Definition ExtractArchive (path : string) : AddonInstallAction :=
  {| AddonInstallAction_Type := ActionExtractArchive;
     AddonInstallAction_URL := "";
     AddonInstallAction_Path := path;
     AddonInstallAction_Content := "";
     AddonInstallAction_Command := "";
     AddonInstallAction_Headers := ∅;
     AddonInstallAction_NodePayload := "";
     AddonInstallAction_NodeEndpoint := "" |}.

Definition DeleteFile (path : string) : AddonInstallAction :=
  {| AddonInstallAction_Type := ActionDeleteFile;
     AddonInstallAction_URL := "";
     AddonInstallAction_Path := path;
     AddonInstallAction_Content := "";
     AddonInstallAction_Command := "";
     AddonInstallAction_Headers := ∅;
     AddonInstallAction_NodePayload := "";
     AddonInstallAction_NodeEndpoint := "" |}.

Definition CreateFolder (path : string) : AddonInstallAction :=
  {| AddonInstallAction_Type := ActionCreateFolder;
     AddonInstallAction_URL := "";
     AddonInstallAction_Path := path;
     AddonInstallAction_Content := "";
     AddonInstallAction_Command := "";
     AddonInstallAction_Headers := ∅;
     AddonInstallAction_NodePayload := "";
     AddonInstallAction_NodeEndpoint := "" |}.

Definition WriteFile (path content : string) : AddonInstallAction :=
  {| AddonInstallAction_Type := ActionWriteFile;
     AddonInstallAction_URL := "";
     AddonInstallAction_Path := path;
     AddonInstallAction_Content := content;
     AddonInstallAction_Command := "";
     AddonInstallAction_Headers := ∅;
     AddonInstallAction_NodePayload := "";
     AddonInstallAction_NodeEndpoint := "" |}.

Definition ProxyToNode (endpoint payload : string) : AddonInstallAction :=
  {| AddonInstallAction_Type := ActionProxyToNode;
     AddonInstallAction_URL := "";
     AddonInstallAction_Path := "";
     AddonInstallAction_Content := "";
     AddonInstallAction_Command := "";
     AddonInstallAction_Headers := ∅;
     AddonInstallAction_NodePayload := payload;
     AddonInstallAction_NodeEndpoint := endpoint |}.

(** The wire form of an install action (the body of the loop of
    [handleAddonType], plugin.go, lines 604-613). *)
Definition wireAction (a : AddonInstallAction) : pb_AddonInstallAction :=
  {| pb_AddonInstallAction_Type := AddonInstallAction_Type a;
     pb_AddonInstallAction_Url := AddonInstallAction_URL a;
     pb_AddonInstallAction_Path := AddonInstallAction_Path a;
     pb_AddonInstallAction_Content := AddonInstallAction_Content a;
     pb_AddonInstallAction_Command := AddonInstallAction_Command a;
     pb_AddonInstallAction_Headers := AddonInstallAction_Headers a;
     pb_AddonInstallAction_NodePayload := AddonInstallAction_NodePayload a;
     pb_AddonInstallAction_NodeEndpoint := AddonInstallAction_NodeEndpoint a |}.

(** Text that the JSON encoder copies as it is: printable ASCII other than
    the double quote, the backslash and the three characters the encoder
    escapes for HTML. *)
Definition plainByte (c : ascii) : bool :=
  let n := nat_of_ascii c in
  (32 <=? n) && (n <? 127)
  && negb ((n =? 34) || (n =? 92) || (n =? 38) || (n =? 60) || (n =? 62)).

Fixpoint plainText (s : string) : bool :=
  match s with
  | "" => true
  | String c rest => plainByte c && plainText rest
  end.

(** The body of an error reply for a message of plain text. *)
Definition errorBody (msg : string) : string :=
  "{" +:+ Str.dquote +:+ "error" +:+ Str.dquote +:+ ":"
      +:+ Str.dquote +:+ msg +:+ Str.dquote +:+ ","
      +:+ Str.dquote +:+ "success" +:+ Str.dquote +:+ ":false}".

(** The values that fit Go's [int32]. *)
Definition fitsInt32 (x : Z) : Prop := (- 2 ^ 31 ≤ x < 2 ^ 31)%Z.

Section EngineMore.
Context `{Host}.

(** The entry of the registration for one route (the body of the loop of
    [buildInfo] over [p.routes], plugin.go, lines 399-409). *)
Definition routeInfo (cfg : RouteConfig) : pb_RouteInfo :=
  {| pb_RouteInfo_Method := RouteConfig_Method cfg;
     pb_RouteInfo_Path := RouteConfig_Path cfg;
     pb_RouteInfo_RateLimit :=
       if negb (String.eqb (RouteConfig_RateLimitPreset cfg) "")
          || (0 <? RouteConfig_RateLimitRPM cfg)%Z
       then Some {| pb_RateLimitConfig_Preset := RouteConfig_RateLimitPreset cfg;
                    pb_RateLimitConfig_RequestsPerMinute :=
                      int32 (RouteConfig_RateLimitRPM cfg);
                    pb_RateLimitConfig_BurstLimit :=
                      int32 (RouteConfig_RateLimitBurst cfg) |}
       else None |}.

(** The reply kind that belongs to each call kind of the type switch of
    [handleMessage]. *)
Definition answers (call : pb_PanelPayload) (r : pb_PluginPayload) : bool :=
  match call, r with
  | PanelMessage_Event _, PluginMessage_EventResponse _ => true
  | PanelMessage_Http _, PluginMessage_HttpResponse _ => true
  | PanelMessage_Schedule _, PluginMessage_ScheduleResponse => true
  | PanelMessage_Mixin _, PluginMessage_MixinResponse _ => true
  | PanelMessage_AddonType _, PluginMessage_AddonTypeResponse _ => true
  | _, _ => false
  end.

(** The payloads that are calls: the first five cases of the type switch. *)
Definition isCall (call : pb_PanelPayload) : bool :=
  match call with
  | PanelMessage_Event _ | PanelMessage_Http _ | PanelMessage_Schedule _
  | PanelMessage_Mixin _ | PanelMessage_AddonType _ => true
  | PanelMessage_Registered | PanelMessage_Shutdown | PanelMessage_Other => false
  end.

(** The request ids of the messages of a script, in order of arrival. *)
Definition recvIds (script : list Recv) : list string :=
  omap (λ r, match r with
             | RecvMsg msg _ => Some (pb_PanelMessage_RequestId msg)
             | RecvErr _ => None
             end) script.

(** The channel and the stream open, the registration is sent, and the
    first message received is the acknowledgement. *)
Definition acknowledged (env : Env) : bool :=
  match grpc_NewClient env, panel_Connect env, stream_SendRegister env, stream_Recv env with
  | None, None, None, RecvMsg msg _ :: _ =>
      match pb_PanelMessage_Payload msg with
      | PanelMessage_Registered => true
      | _ => false
      end
  | _, _, _, _ => false
  end.

(** The first of the three steps before the handshake to fail, if any. *)
Definition openError (env : Env) : option error :=
  match grpc_NewClient env with
  | Some err => Some err
  | None =>
      match panel_Connect env with
      | Some err => Some err
      | None => stream_SendRegister env
      end
  end.

(** The call reaches a handler that is a nil func: the entry found for it
    in the registry holds nil.  ([handleMixin] tests for nil itself.) *)
Definition reachesNil (seed : list string) (p : Plugin) (call : pb_PanelPayload) : bool :=
  match call with
  | PanelMessage_Event ev =>
      match Plugin_events p !! pb_Event_Type ev with
      | Some None => true
      | _ => false
      end
  | PanelMessage_Http req =>
      match resolveRoute seed p req with
      | Some cfg => match RouteConfig_Handler cfg with None => true | Some _ => false end
      | None => false
      end
  | PanelMessage_Schedule req =>
      match List.find (λ kv, String.eqb (splitKey kv.1).1 (pb_ScheduleRequest_ScheduleId req))
                      (range seed (Plugin_schedule p)) with
      | Some (_, None) => true
      | _ => false
      end
  | PanelMessage_AddonType req =>
      match Plugin_addonTypes p !! pb_AddonTypeRequest_TypeId req with
      | Some None => true
      | _ => false
      end
  | _ => false
  end.

End EngineMore.

(** ** plugin.go: the config file

    [SaveConfig] and [LoadConfig] pass a Go value through [encoding/json]
    and a file through [os].  The codec is the library's: [Config] are the
    Go values a plugin keeps as its configuration, [json_MarshalIndent v]
    is the result of [json.MarshalIndent(v, "", "  ")] (an error or the
    bytes), and [json_UnmarshalInto data target] the result of
    [json.Unmarshal(data, &target)]: the error, if any, and what the target
    holds afterwards. *)
Class Codec := {
  Config : Type;
  jsonError : Type;
  json_MarshalIndent : Config → jsonError + string;
  json_UnmarshalInto : string → Config → option jsonError * Config }.

(** The file store: the contents of the files, by path, and the paths at
    which a file can be created or overwritten (the directory exists and
    may be written to).  [os.ReadFile] fails on a path without a file;
    [os.WriteFile] fails, writing nothing, on a path that is not writable.
    Other failures of the two calls are not modelled. *)
Record FileStore := {
  files : gmap string string;
  writable : string → bool }.

Section ConfigFile.
Context `{Host} `{Codec}.

(** The errors that [SaveConfig] and [LoadConfig] return: those of the
    codec, and those of [os], with the operation and the path. *)
Inductive configError :=
  | JSONError (e : jsonError)
  | PathError (op path : string).

Definition os_ReadFile (path : string) (fs : FileStore) : configError + string :=
  match files fs !! path with
  | Some data => inr data
  | None => inl (PathError "open" path)
  end.

Definition os_WriteFile (path data : string) (fs : FileStore)
  : option configError * FileStore :=
  if writable fs path
  then (None, {| files := <[path := data]> (files fs); writable := writable fs |})
  else (Some (PathError "open" path), fs).

(** [SaveConfig] (plugin.go, lines 306-312). *)
Definition SaveConfig (p : Plugin) (v : Config) (fs : FileStore)
  : option configError * FileStore :=
  match json_MarshalIndent v with
  | inl err => (Some (JSONError err), fs)
  | inr data => os_WriteFile (DataPath p "config.json") data fs
  end.

(** [LoadConfig] (plugin.go, lines 314-320); [target] is what [v] points
    to before the call, and the second component what it points to after. *)
Definition LoadConfig (p : Plugin) (target : Config) (fs : FileStore)
  : option configError * Config :=
  match os_ReadFile (DataPath p "config.json") fs with
  | inl err => (Some err, target)
  | inr data =>
      let '(err, target') := json_UnmarshalInto data target in
      (JSONError <$> err, target')
  end.

End ConfigFile.

Module Stored.

(** A sample codec: the configuration is a text, written as it is. *)
Definition codec : Codec :=
  {| Config := string;
     jsonError := string;
     json_MarshalIndent := λ v, inr v;
     json_UnmarshalInto := λ data _, (None, data) |}.

(** A document to save, and the value of a target before loading. *)
Definition settings : @Config codec := "{ port: 8080 }".

Definition blank : @Config codec := "{}".

(** A file store without files, in which every path is writable. *)
Definition disk : FileStore := {| files := ∅; writable := λ _, true |}.

End Stored.

(** ** ui.go *)

Module UI.

(** Modelled from the spec: the descriptor messages [pb.PluginUIPage],
    [pb.PluginUITab], [pb.PluginUISidebarItem], [pb.PluginUISidebarChild]
    and [pb.PluginUIInfo] are declared in the protobuf package, which is not
    among the sources.  The records hold the fields that ui.go writes, under
    its names; the spec (section 6) only names the whole as the UI
    descriptor of the registration. *)
Record PluginUIPage := {
  Page_Path : string;
  Page_Component : string;
  Page_Title : string;
  Page_Icon : string;
  Page_Guard : string }.

Record PluginUITab := {
  Tab_Id : string;
  Tab_Component : string;
  Tab_Target : string;
  Tab_Label : string;
  Tab_Icon : string;
  Tab_Order : Z }.

Record PluginUISidebarChild := {
  Child_Label : string;
  Child_Href : string }.

Record PluginUISidebarItem := {
  Item_Id : string;
  Item_Label : string;
  Item_Href : string;
  Item_Section : string;
  Item_Icon : string;
  Item_Order : Z;
  Item_Guard : string;
  Item_Children : list PluginUISidebarChild }.

Record PluginUIInfo := {
  Info_HasBundle : bool;
  Info_Pages : list PluginUIPage;
  Info_Tabs : list PluginUITab;
  Info_SidebarItems : list PluginUISidebarItem;
  Info_BundleData : string }.

(** The [UIBuilder] struct.  Its three slices hold pointers, and each page,
    tab and item builder keeps the pointer of the element it was returned
    for.  The slices only grow, by [append], and every element is a new
    object, so a pointer is the index of its element in the slice. *)
Record UIBuilder := {
  hasBundle : bool;
  bundleData : string;
  pages : list PluginUIPage;
  tabs : list PluginUITab;
  sidebarItems : list PluginUISidebarItem }.

Record UIPageBuilder := { UIPageBuilder_page : nat }.
Record UITabBuilder := { UITabBuilder_tab : nat }.
Record UISidebarBuilder := { UISidebarBuilder_item : nat }.

Definition newUIBuilder : UIBuilder :=
  {| hasBundle := false; bundleData := ""; pages := []; tabs := []; sidebarItems := [] |}.

Definition setBundle (flag : bool) (data : string) (u : UIBuilder) : UIBuilder :=
  {| hasBundle := flag; bundleData := data;
     pages := pages u; tabs := tabs u; sidebarItems := sidebarItems u |}.

Definition setPages (l : list PluginUIPage) (u : UIBuilder) : UIBuilder :=
  {| hasBundle := hasBundle u; bundleData := bundleData u;
     pages := l; tabs := tabs u; sidebarItems := sidebarItems u |}.

Definition setTabs (l : list PluginUITab) (u : UIBuilder) : UIBuilder :=
  {| hasBundle := hasBundle u; bundleData := bundleData u;
     pages := pages u; tabs := l; sidebarItems := sidebarItems u |}.

Definition setSidebarItems (l : list PluginUISidebarItem) (u : UIBuilder) : UIBuilder :=
  {| hasBundle := hasBundle u; bundleData := bundleData u;
     pages := pages u; tabs := tabs u; sidebarItems := l |}.

Definition HasBundle (u : UIBuilder) : UIBuilder := setBundle true (bundleData u) u.

(** [EmbedBundle] (ui.go, lines 30-37).  The embedded file system is a map
    from paths to contents; [fs.ReadFile] fails on a path it does not hold. *)
Definition EmbedBundle (fs : gmap string string) (path : string) (u : UIBuilder)
  : UIBuilder :=
  match fs !! path with
  | Some data => setBundle true data u
  | None => u
  end.

Definition BundleBytes (data : string) (u : UIBuilder) : UIBuilder := setBundle true data u.

Definition GetBundleData (u : UIBuilder) : string := bundleData u.

Definition Page (path component : string) (u : UIBuilder) : UIBuilder * UIPageBuilder :=
  (setPages (pages u ++ [ {| Page_Path := path; Page_Component := component;
                             Page_Title := ""; Page_Icon := ""; Page_Guard := "" |} ]) u,
   {| UIPageBuilder_page := length (pages u) |}).

Definition Tab (id component target label : string) (u : UIBuilder)
  : UIBuilder * UITabBuilder :=
  (setTabs (tabs u ++ [ {| Tab_Id := id; Tab_Component := component;
                           Tab_Target := target; Tab_Label := label;
                           Tab_Icon := ""; Tab_Order := 0 |} ]) u,
   {| UITabBuilder_tab := length (tabs u) |}).

Definition SidebarItem (id label href section : string) (u : UIBuilder)
  : UIBuilder * UISidebarBuilder :=
  (setSidebarItems
     (sidebarItems u ++ [ {| Item_Id := id; Item_Label := label; Item_Href := href;
                             Item_Section := section; Item_Icon := ""; Item_Order := 0;
                             Item_Guard := ""; Item_Children := [] |} ]) u,
   {| UISidebarBuilder_item := length (sidebarItems u) |}).

Definition build (u : UIBuilder) : PluginUIInfo :=
  {| Info_HasBundle := hasBundle u;
     Info_Pages := pages u;
     Info_Tabs := tabs u;
     Info_SidebarItems := sidebarItems u;
     Info_BundleData := bundleData u |}.

(** The setters of a page builder write through its pointer. *)
Definition writePage (b : UIPageBuilder) (f : PluginUIPage → PluginUIPage)
    (u : UIBuilder) : UIBuilder :=
  setPages (alter f (UIPageBuilder_page b) (pages u)) u.

Definition UIPageBuilder_Title (b : UIPageBuilder) (title : string) : UIBuilder → UIBuilder :=
  writePage b (λ p, {| Page_Path := Page_Path p; Page_Component := Page_Component p;
                       Page_Title := title; Page_Icon := Page_Icon p;
                       Page_Guard := Page_Guard p |}).

Definition UIPageBuilder_Icon (b : UIPageBuilder) (icon : string) : UIBuilder → UIBuilder :=
  writePage b (λ p, {| Page_Path := Page_Path p; Page_Component := Page_Component p;
                       Page_Title := Page_Title p; Page_Icon := icon;
                       Page_Guard := Page_Guard p |}).

Definition UIPageBuilder_Guard (b : UIPageBuilder) (guard : string) : UIBuilder → UIBuilder :=
  writePage b (λ p, {| Page_Path := Page_Path p; Page_Component := Page_Component p;
                       Page_Title := Page_Title p; Page_Icon := Page_Icon p;
                       Page_Guard := guard |}).

Definition UIPageBuilder_AdminOnly (b : UIPageBuilder) : UIBuilder → UIBuilder :=
  UIPageBuilder_Guard b "admin".

Definition writeTab (b : UITabBuilder) (f : PluginUITab → PluginUITab)
    (u : UIBuilder) : UIBuilder :=
  setTabs (alter f (UITabBuilder_tab b) (tabs u)) u.

Definition UITabBuilder_Icon (b : UITabBuilder) (icon : string) : UIBuilder → UIBuilder :=
  writeTab b (λ t, {| Tab_Id := Tab_Id t; Tab_Component := Tab_Component t;
                      Tab_Target := Tab_Target t; Tab_Label := Tab_Label t;
                      Tab_Icon := icon; Tab_Order := Tab_Order t |}).

Definition UITabBuilder_Order (b : UITabBuilder) (order : Z) : UIBuilder → UIBuilder :=
  writeTab b (λ t, {| Tab_Id := Tab_Id t; Tab_Component := Tab_Component t;
                      Tab_Target := Tab_Target t; Tab_Label := Tab_Label t;
                      Tab_Icon := Tab_Icon t; Tab_Order := int32 order |}).

Definition writeItem (b : UISidebarBuilder) (f : PluginUISidebarItem → PluginUISidebarItem)
    (u : UIBuilder) : UIBuilder :=
  setSidebarItems (alter f (UISidebarBuilder_item b) (sidebarItems u)) u.

Definition UISidebarBuilder_Icon (b : UISidebarBuilder) (icon : string)
  : UIBuilder → UIBuilder :=
  writeItem b (λ s, {| Item_Id := Item_Id s; Item_Label := Item_Label s;
                       Item_Href := Item_Href s; Item_Section := Item_Section s;
                       Item_Icon := icon; Item_Order := Item_Order s;
                       Item_Guard := Item_Guard s; Item_Children := Item_Children s |}).

Definition UISidebarBuilder_Order (b : UISidebarBuilder) (order : Z)
  : UIBuilder → UIBuilder :=
  writeItem b (λ s, {| Item_Id := Item_Id s; Item_Label := Item_Label s;
                       Item_Href := Item_Href s; Item_Section := Item_Section s;
                       Item_Icon := Item_Icon s; Item_Order := int32 order;
                       Item_Guard := Item_Guard s; Item_Children := Item_Children s |}).

Definition UISidebarBuilder_AdminOnly (b : UISidebarBuilder) : UIBuilder → UIBuilder :=
  writeItem b (λ s, {| Item_Id := Item_Id s; Item_Label := Item_Label s;
                       Item_Href := Item_Href s; Item_Section := Item_Section s;
                       Item_Icon := Item_Icon s; Item_Order := Item_Order s;
                       Item_Guard := "admin"; Item_Children := Item_Children s |}).

Definition UISidebarBuilder_Child (b : UISidebarBuilder) (label href : string)
  : UIBuilder → UIBuilder :=
  writeItem b (λ s, {| Item_Id := Item_Id s; Item_Label := Item_Label s;
                       Item_Href := Item_Href s; Item_Section := Item_Section s;
                       Item_Icon := Item_Icon s; Item_Order := Item_Order s;
                       Item_Guard := Item_Guard s;
                       Item_Children := Item_Children s ++
                         [ {| Child_Label := label; Child_Href := href |} ] |}).

(** One call of the builder API, the builders being given by the element
    they point to; [calls] is a run of such calls. *)
Inductive Call :=
  | CallHasBundle
  | CallEmbedBundle (fs : gmap string string) (path : string)
  | CallBundleBytes (data : string)
  | CallPage (path component : string)
  | CallPageTitle (b : UIPageBuilder) (title : string)
  | CallPageIcon (b : UIPageBuilder) (icon : string)
  | CallPageAdminOnly (b : UIPageBuilder)
  | CallPageGuard (b : UIPageBuilder) (guard : string)
  | CallTab (id component target label : string)
  | CallTabIcon (b : UITabBuilder) (icon : string)
  | CallTabOrder (b : UITabBuilder) (order : Z)
  | CallSidebarItem (id label href section : string)
  | CallSidebarIcon (b : UISidebarBuilder) (icon : string)
  | CallSidebarOrder (b : UISidebarBuilder) (order : Z)
  | CallSidebarAdminOnly (b : UISidebarBuilder)
  | CallSidebarChild (b : UISidebarBuilder) (label href : string).

Definition call (c : Call) (u : UIBuilder) : UIBuilder :=
  match c with
  | CallHasBundle => HasBundle u
  | CallEmbedBundle fs path => EmbedBundle fs path u
  | CallBundleBytes data => BundleBytes data u
  | CallPage path component => (Page path component u).1
  | CallPageTitle b title => UIPageBuilder_Title b title u
  | CallPageIcon b icon => UIPageBuilder_Icon b icon u
  | CallPageAdminOnly b => UIPageBuilder_AdminOnly b u
  | CallPageGuard b guard => UIPageBuilder_Guard b guard u
  | CallTab id component target label => (Tab id component target label u).1
  | CallTabIcon b icon => UITabBuilder_Icon b icon u
  | CallTabOrder b order => UITabBuilder_Order b order u
  | CallSidebarItem id label href section => (SidebarItem id label href section u).1
  | CallSidebarIcon b icon => UISidebarBuilder_Icon b icon u
  | CallSidebarOrder b order => UISidebarBuilder_Order b order u
  | CallSidebarAdminOnly b => UISidebarBuilder_AdminOnly b u
  | CallSidebarChild b label href => UISidebarBuilder_Child b label href u
  end.

Definition calls (cs : list Call) (u : UIBuilder) : UIBuilder :=
  foldl (λ u c, call c u) u cs.

(** What identifies a page, a tab and a sidebar item at its creation. *)
Definition pageKey (p : PluginUIPage) : string * string :=
  (Page_Path p, Page_Component p).

Definition tabKey (t : PluginUITab) : string * string * string * string :=
  (Tab_Id t, Tab_Component t, Tab_Target t, Tab_Label t).

Definition itemKey (s : PluginUISidebarItem) : string * string * string * string :=
  (Item_Id s, Item_Label s, Item_Href s, Item_Section s).

(** The pages, tabs and items that a run of calls creates, in order. *)
Definition pagesCreated (cs : list Call) : list (string * string) :=
  omap (λ c, match c with
             | CallPage path component => Some (path, component)
             | _ => None
             end) cs.

Definition tabsCreated (cs : list Call) : list (string * string * string * string) :=
  omap (λ c, match c with
             | CallTab id component target label => Some (id, component, target, label)
             | _ => None
             end) cs.

Definition itemsCreated (cs : list Call) : list (string * string * string * string) :=
  omap (λ c, match c with
             | CallSidebarItem id label href section => Some (id, label, href, section)
             | _ => None
             end) cs.

(** The children that a run of calls adds to the sidebar item [i]. *)
Definition childrenAdded (i : nat) (cs : list Call) : list PluginUISidebarChild :=
  omap (λ c, match c with
             | CallSidebarChild b label href =>
                 if UISidebarBuilder_item b =? i
                 then Some {| Child_Label := label; Child_Href := href |}
                 else None
             | _ => None
             end) cs.

(** The title, icon and guard of page [j] after a run of calls: those of
    the last [Title], [Icon], and [Guard] or [AdminOnly] call made through
    the builder of page [j], or the old ones if there was none. *)
Definition lastTitle (j : nat) (cs : list Call) (old : string) : string :=
  foldl (λ t c, match c with
                | CallPageTitle b title => if UIPageBuilder_page b =? j then title else t
                | _ => t
                end) old cs.

Definition lastIcon (j : nat) (cs : list Call) (old : string) : string :=
  foldl (λ i c, match c with
                | CallPageIcon b icon => if UIPageBuilder_page b =? j then icon else i
                | _ => i
                end) old cs.

Definition lastGuard (j : nat) (cs : list Call) (old : string) : string :=
  foldl (λ g c, match c with
                | CallPageGuard b guard => if UIPageBuilder_page b =? j then guard else g
                | CallPageAdminOnly b => if UIPageBuilder_page b =? j then "admin" else g
                | _ => g
                end) old cs.

(** A sample builder with one page, and the builder of that page. *)
Definition site : UIBuilder := (Page "/servers" "ServerList" newUIBuilder).1.

Definition sitePage : UIPageBuilder := (Page "/servers" "ServerList" newUIBuilder).2.

(** A sample sidebar with one item, and the builder of that item. *)
Definition menu : UIBuilder :=
  (SidebarItem "servers" "Servers" "/servers" "nav" newUIBuilder).1.

Definition menuItem : UISidebarBuilder :=
  (SidebarItem "servers" "Servers" "/servers" "nav" newUIBuilder).2.

End UI.

(** * Facts *)

Section StringFacts.

Lemma str_app_cons (a : ascii) (s t : string) :
  String a s +:+ t = String a (s +:+ t).
Proof. reflexivity. Qed.

Lemma str_app_nil_l (t : string) : "" +:+ t = t.
Proof. reflexivity. Qed.

Lemma str_app_nil_r (s : string) : s +:+ "" = s.
Proof. induction s as [|a s IH]; [done|]. by rewrite str_app_cons, IH. Qed.

Lemma str_app_assoc (s t u : string) : (s +:+ t) +:+ u = s +:+ (t +:+ u).
Proof. induction s as [|a s IH]; [done|]. by rewrite !str_app_cons, IH. Qed.

Lemma str_length_app (s t : string) :
  String.length (s +:+ t) = String.length s + String.length t.
Proof. induction s as [|a s IH]; [done|]. rewrite str_app_cons. simpl. by rewrite IH. Qed.

Lemma str_upto_0 (s : string) : Str.upto 0 s = "".
Proof. by destruct s. Qed.

Lemma str_upto_S (n : nat) (a : ascii) (s : string) :
  Str.upto (S n) (String a s) = String a (Str.upto n s).
Proof. reflexivity. Qed.

Lemma str_upto_app (s t : string) : Str.upto (String.length s) (s +:+ t) = s.
Proof.
  induction s as [|a s IH].
  - apply str_upto_0.
  - rewrite str_app_cons. cbn [String.length]. by rewrite str_upto_S, IH.
Qed.

Lemma str_upto_split (n : nat) (s : string) :
  n ≤ String.length s → ∃ t, s = Str.upto n s +:+ t ∧ String.length (Str.upto n s) = n.
Proof.
  revert s. induction n as [|n IH]; intros s Hn.
  - exists s. by rewrite str_upto_0.
  - destruct s as [|a s]; simpl in Hn; [lia|].
    destruct (IH s) as (t & Ht & Hl); [lia|].
    exists t. rewrite str_upto_S, str_app_cons. cbn [String.length].
    split; [by rewrite <- Ht | by rewrite Hl].
Qed.

Lemma str_rest_from_0 (s : string) : Str.rest_from 0 s = s.
Proof.
  unfold Str.rest_from. rewrite Nat.sub_0_r.
  induction s as [|a s IH]; [done|]. simpl. by rewrite IH.
Qed.

Lemma str_last_byte_snoc (s : string) (c : ascii) :
  Str.last_byte (s +:+ String c "") = Some c.
Proof.
  unfold Str.last_byte. rewrite str_length_app. simpl.
  replace (String.length s + 1 - 1) with (String.length s) by lia.
  induction s as [|a s IH]; [done|]. by rewrite str_app_cons.
Qed.

Lemma str_last_byte_inv (s : string) (c : ascii) :
  Str.last_byte s = Some c → ∃ pre, s = pre +:+ String c "".
Proof.
  unfold Str.last_byte. induction s as [|a s IH]; [done|].
  simpl. rewrite Nat.sub_0_r. destruct s as [|b s].
  - simpl. intros [= ->]. by exists "".
  - intros H. destruct IH as [pre ->].
    + simpl. by rewrite Nat.sub_0_r.
    + by exists (String a pre).
Qed.

End StringFacts.

Section MatcherFacts.

Lemma matchPath_refl (p : string) : matchPath p p = true.
Proof. unfold matchPath. by rewrite String.eqb_refl. Qed.

Lemma matchPath_wildcard (pre path : string) :
  matchPath (pre +:+ "*") path = true ↔
  String.length pre ≤ String.length path ∧ Str.upto (String.length pre) path = pre.
Proof.
  unfold matchPath.
  assert (Hlen : String.length (pre +:+ "*") - 1 = String.length pre).
  { rewrite str_length_app. simpl. lia. }
  rewrite Hlen.
  pose proof (str_last_byte_snoc pre "*") as Hlast. unfold Str.last_byte in Hlast.
  rewrite Hlen in Hlast. rewrite Hlast.
  rewrite bool_decide_eq_true_2 by done.
  assert (Hpos : (0 <? String.length (pre +:+ "*")) = true).
  { apply Nat.ltb_lt. rewrite str_length_app. simpl. lia. }
  rewrite Hpos. simpl. rewrite str_upto_app.
  destruct (String.eqb_spec (pre +:+ "*") path) as [<-|Hne].
  - split; [intros _|done]. rewrite str_length_app, str_upto_app. split; [lia|done].
  - rewrite andb_true_iff, Nat.leb_le, String.eqb_eq. done.
Qed.

Lemma matchPath_inv (pattern path : string) :
  matchPath pattern path = true →
  pattern = path ∨ ∃ pre, pattern = pre +:+ "*".
Proof.
  unfold matchPath. destruct (String.eqb_spec pattern path) as [->|Hne]; [by left|].
  destruct (0 <? String.length pattern); simpl; [|done].
  case_bool_decide as Hlast; [|done]. intros _. right.
  by apply str_last_byte_inv in Hlast.
Qed.

Lemma upto_prefix (pre path : string) :
  (String.length pre ≤ String.length path ∧ Str.upto (String.length pre) path = pre)
  ↔ ∃ rest, path = pre +:+ rest.
Proof.
  split.
  - intros [Hlen Hpre]. destruct (str_upto_split _ _ Hlen) as (t & Ht & _).
    exists t. by rewrite Hpre in Ht.
  - intros [rest ->]. rewrite str_length_app, str_upto_app. split; [lia|done].
Qed.

Lemma colonIndex_free (s : string) : colonFree s = true → colonIndex s = None.
Proof.
  induction s as [|c s IH]; [done|]. simpl.
  destruct (Ascii.eqb c ":"); simpl; [done|]. intros H. by rewrite IH.
Qed.

Lemma colonIndex_first (pre post : string) :
  colonFree pre = true →
  colonIndex (pre +:+ ":" +:+ post) = Some (String.length pre).
Proof.
  induction pre as [|c pre IH]; [done|]. rewrite str_app_cons. simpl.
  destruct (Ascii.eqb c ":"); simpl; [done|]. intros H. by rewrite IH.
Qed.

Lemma colonIndex_split (s : string) (i : nat) :
  colonIndex s = Some i →
  ∃ pre post, s = pre +:+ ":" +:+ post ∧ colonFree pre = true ∧ String.length pre = i.
Proof.
  revert i. induction s as [|c s IH]; intros i; [done|]. simpl.
  destruct (Ascii.eqb_spec c ":") as [->|Hc].
  - intros [= <-]. by exists "", s.
  - destruct (colonIndex s) as [j|]; [|done]. simpl. intros [= <-].
    destruct (IH j eq_refl) as (pre & post & -> & Hfree & Hlen).
    exists (String c pre), post. rewrite str_app_cons. simpl.
    destruct (Ascii.eqb_spec c ":"); [done|]. by rewrite Hfree, Hlen.
Qed.

Lemma substring_skip (pre post : string) (c : ascii) (n : nat) :
  String.substring (String.length pre + 1) n (pre +:+ String c post)
  = String.substring 0 n post.
Proof.
  induction pre as [|a pre IH]; [done|]. rewrite str_app_cons. exact IH.
Qed.

Lemma rest_from_app (pre post : string) :
  Str.rest_from (String.length pre + 1) (pre +:+ ":" +:+ post) = post.
Proof.
  unfold Str.rest_from. change (":" +:+ post) with (String ":" post).
  rewrite substring_skip, str_length_app. cbn [String.length].
  replace (String.length pre + S (String.length post) - (String.length pre + 1))
    with (String.length post - 0) by lia.
  apply (str_rest_from_0 post).
Qed.

(** [splitKey] cuts at the first colon. *)
Lemma splitKey_colon (pre post : string) :
  colonFree pre = true → splitKey (pre +:+ ":" +:+ post) = (pre, post).
Proof.
  intros Hfree. unfold splitKey. rewrite colonIndex_first by done.
  by rewrite str_upto_app, rest_from_app.
Qed.

Lemma splitKey_no_colon (key : string) :
  colonFree key = true → splitKey key = (key, "").
Proof. intros Hfree. unfold splitKey. by rewrite colonIndex_free. Qed.

(** The first component of [splitKey] never holds a colon. *)
Lemma splitKey_fst_colonFree (key : string) : colonFree (splitKey key).1 = true.
Proof.
  unfold splitKey. destruct (colonIndex key) as [i|] eqn:Hi; simpl.
  - destruct (colonIndex_split _ _ Hi) as (pre & post & -> & Hfree & <-).
    by rewrite str_upto_app.
  - clear -Hi. induction key as [|c key IH]; [done|]. simpl in *.
    destruct (Ascii.eqb c ":"); [done|]. simpl.
    destruct (colonIndex key); [done|]. by apply IH.
Qed.

End MatcherFacts.

Section RangeFacts.
Context {V : Type}.
Implicit Types (m : gmap string V) (seed ks : list string).

Lemma elem_of_range seed m k v : (k, v) ∈ range seed m ↔ m !! k = Some v.
Proof.
  unfold range. rewrite elem_of_app, list_elem_of_omap, list_elem_of_filter.
  rewrite elem_of_map_to_list. simpl. split.
  - intros [(k' & _ & Hk)|[_ ?]]; [|done].
    destruct (m !! k') as [v'|] eqn:E; simplify_eq/=. done.
  - intros Hkv. destruct (decide (k ∈ remove_dups seed)) as [Hin|Hout].
    + left. exists k. by rewrite Hkv.
    + by right.
Qed.

Lemma omap_keys_NoDup ks m :
  NoDup ks → NoDup (omap (λ k, (k,.) <$> m !! k) ks).
Proof.
  induction 1 as [|k ks Hk Hnd IH]; simpl; [constructor|].
  destruct (m !! k) as [v|] eqn:E; simpl; [|done].
  constructor; [|done]. rewrite list_elem_of_omap.
  intros (k' & Hin & Hk'). destruct (m !! k'); simplify_eq/=. done.
Qed.

Lemma range_NoDup seed m : NoDup (range seed m).
Proof.
  unfold range. apply NoDup_app. split_and!.
  - apply omap_keys_NoDup, NoDup_remove_dups.
  - intros [k v]. rewrite list_elem_of_omap, list_elem_of_filter. simpl.
    intros (k' & Hin & Hk') [Hout _].
    destruct (m !! k'); simplify_eq/=. done.
  - apply NoDup_filter, NoDup_map_to_list.
Qed.

Lemma range_perm seed m : range seed m ≡ₚ map_to_list m.
Proof.
  apply NoDup_Permutation; [apply range_NoDup|apply NoDup_map_to_list|].
  intros [k v]. by rewrite elem_of_range, elem_of_map_to_list.
Qed.

Lemma range_keys_NoDup seed m : NoDup (range seed m).*1.
Proof. rewrite range_perm. apply NoDup_fst_map_to_list. Qed.

Lemma remove_dups_id ks : NoDup ks → remove_dups ks = ks.
Proof.
  induction 1 as [|k ks Hk Hnd IH]; [done|]. simpl.
  destruct (decide_rel elem_of k ks); [done|]. by rewrite IH.
Qed.

Lemma filter_none (P : string * V → Prop) `{∀ x, Decision (P x)} (l : list (string * V)) :
  (∀ x, x ∈ l → ¬ P x) → filter P l = [].
Proof.
  induction l as [|x l IH]; intros HP; [done|].
  rewrite filter_cons. destruct (decide (P x)) as [HPx|_].
  - destruct (HP x); [left|done].
  - apply IH. intros y Hy. apply HP. by right.
Qed.

(** Every order of the entries is the visit of some seed. *)
Lemma range_any (l : list (string * V)) m :
  l ≡ₚ map_to_list m → range l.*1 m = l.
Proof.
  intros Hl. unfold range.
  assert (Hnd : NoDup l.*1) by (rewrite Hl; apply NoDup_fst_map_to_list).
  rewrite (remove_dups_id _ Hnd).
  assert (Hlook : ∀ k v, (k, v) ∈ l → m !! k = Some v).
  { intros k v. rewrite Hl. apply elem_of_map_to_list. }
  rewrite filter_none, app_nil_r.
  - clear Hl Hnd. induction l as [|[k v] l IH]; [done|]. simpl.
    rewrite (Hlook k v) by left. simpl. f_equal. apply IH.
    intros k' v' Hin. apply Hlook. by right.
  - intros [k v]. rewrite <- Hl. simpl. intros Hin Hout. apply Hout.
    apply list_elem_of_fmap. by exists (k, v).
Qed.

End RangeFacts.

Section FindFacts.
Context {V : Type}.
Implicit Types (m : gmap string V) (seed : list string).

Lemma find_range_Some seed m (f : string * V → bool) k v :
  List.find f (range seed m) = Some (k, v) → m !! k = Some v ∧ f (k, v) = true.
Proof.
  intros Hf. apply find_some in Hf as [Hin Hfx].
  apply list_elem_of_In, elem_of_range in Hin. done.
Qed.

Lemma find_range_None seed m (f : string * V → bool) :
  List.find f (range seed m) = None ↔ ∀ k v, m !! k = Some v → f (k, v) = false.
Proof.
  split.
  - intros Hf k v Hkv. apply (find_none _ _ Hf).
    by apply list_elem_of_In, elem_of_range.
  - intros Hall. destruct (List.find f (range seed m)) as [[k v]|] eqn:Hf; [|done].
    apply find_range_Some in Hf as [Hkv Hfx]. by rewrite (Hall k v Hkv) in Hfx.
Qed.

Lemma find_values_Some seed m (f : V → bool) v :
  List.find f (range seed m).*2 = Some v → (∃ k, m !! k = Some v) ∧ f v = true.
Proof.
  intros Hf. apply find_some in Hf as [Hin Hfx]. split; [|done].
  apply list_elem_of_In, list_elem_of_fmap in Hin as ([k v'] & -> & Hin).
  exists k. by apply elem_of_range in Hin.
Qed.

Lemma find_values_None seed m (f : V → bool) :
  List.find f (range seed m).*2 = None ↔ ∀ k v, m !! k = Some v → f v = false.
Proof.
  split.
  - intros Hf k v Hkv. apply (find_none _ _ Hf).
    apply list_elem_of_In, list_elem_of_fmap. exists (k, v).
    split; [done|]. by apply elem_of_range.
  - intros Hall. destruct (List.find f (range seed m).*2) as [v|] eqn:Hf; [|done].
    apply find_values_Some in Hf as [[k Hkv] Hfx]. by rewrite (Hall k v Hkv) in Hfx.
Qed.

End FindFacts.

Section EngineFacts.
Context `{Host}.

(** Every route of a built registry is stored under its own
    [method+":"+path]. *)
Lemma built_routes_keyed (p : Plugin) :
  built p →
  ∀ k cfg, Plugin_routes p !! k = Some cfg →
           k = RouteConfig_Method cfg +:+ ":" +:+ RouteConfig_Path cfg.
Proof.
  induction 1 as [id version|name p _ IH|p _ IH|fn p _ IH|eventType handler p _ IH
                 |method path handler p _ IH|rb rpm burst p _ IH|rb preset p _ IH
                 |id cron handler p _ IH|target priority handler p _ IH
                 |typeID name description handler p _ IH|dir p _ IH];
    intros k cfg; try exact (IH k cfg).
  - simpl. by rewrite lookup_empty.
  - simpl. rewrite lookup_insert. case_decide as Hk.
    + intros [= <-]. by rewrite <- Hk.
    + apply IH.
  - simpl. rewrite lookup_fmap.
    destruct (Plugin_routes p !! k) as [c|] eqn:Hc; [|done]. simpl.
    intros [= <-]. rewrite (IH k c Hc). by destruct (RouteConfig_addr c =? _).
  - simpl. rewrite lookup_fmap.
    destruct (Plugin_routes p !! k) as [c|] eqn:Hc; [|done]. simpl.
    intros [= <-]. rewrite (IH k c Hc). by destruct (RouteConfig_addr c =? _).
Qed.

Lemma registerMixins_mixins (regs : list MixinRegistration) (p : Plugin) :
  Plugin_mixins (registerMixins regs p) = Plugin_mixins p ++ regs.
Proof.
  unfold registerMixins. revert p.
  induction regs as [|r regs IH]; intros p; simpl.
  - by rewrite app_nil_r.
  - rewrite IH. simpl. rewrite <- app_assoc. by destruct r.
Qed.

Lemma find_skip {A : Type} (f : A → bool) (pre post : list A) :
  (∀ x, x ∈ pre → f x = false) → List.find f (pre ++ post) = List.find f post.
Proof.
  induction pre as [|x pre IH]; intros Hpre; [done|]. simpl.
  rewrite (Hpre x) by left. apply IH. intros y Hy. apply Hpre. by right.
Qed.

End EngineFacts.


(** * The claims *)

(** C6: the route matcher.  A pattern equal to the path matches; a pattern
    [pre*] matches exactly the paths that are at least as long as [pre] and
    whose first bytes are [pre]; nothing else matches; and [/api/*] matches
    [/api/], [/api/x] and [/api/x/y] but not [/ap]. *)
Theorem matchPath_spec :
  (∀ path, matchPath path path = true) ∧
  (∀ pre path,
     matchPath (pre +:+ "*") path = true ↔
     String.length pre ≤ String.length path ∧ Str.upto (String.length pre) path = pre) ∧
  (∀ pattern path,
     matchPath pattern path = true ↔
     pattern = path ∨ ∃ pre rest, pattern = pre +:+ "*" ∧ path = pre +:+ rest) ∧
  matchPath "/api/*" "/api/" = true ∧
  matchPath "/api/*" "/api/x" = true ∧
  matchPath "/api/*" "/api/x/y" = true ∧
  matchPath "/api/*" "/ap" = false.
Proof.
  split_and!; try reflexivity.
  - apply matchPath_refl.
  - apply matchPath_wildcard.
  - intros pattern path. split.
    + intros Hm. destruct (matchPath_inv _ _ Hm) as [?|[pre ->]]; [by left|].
      apply matchPath_wildcard, upto_prefix in Hm as [rest ->].
      right. by exists pre, rest.
    + intros [->|(pre & rest & -> & ->)]; [apply matchPath_refl|].
      apply matchPath_wildcard, upto_prefix. by exists rest.
Qed.

Section Claims.
Context `{Host}.

(** C8: an event whose type has no handler in the registry is answered
    with an allow verdict and an empty message; the program state is left as
    it was, and [handleMessage] only adds that reply, under the request id of
    the event, to what was sent ([*p] is read, never written). *)
Theorem event_without_handler (p : Plugin) (ev : pb_Event) :
  Plugin_events p !! pb_Event_Type ev = None →
  (∀ w, handleEvent p ev w =
        Done (reply (PluginMessage_EventResponse
                       {| pb_EventResponse_Allow := true;
                          pb_EventResponse_Message := "" |}), w)) ∧
  (∀ seed c id,
     handleMessage seed p c {| pb_PanelMessage_RequestId := id;
                               pb_PanelMessage_Payload := PanelMessage_Event ev |} =
     Continue {| Conn_world := Conn_world c;
                 Conn_sent := Conn_sent c ++
                   [ {| pb_PluginMessage_RequestId := id;
                        pb_PluginMessage_Payload :=
                          PluginMessage_EventResponse
                            {| pb_EventResponse_Allow := true;
                               pb_EventResponse_Message := "" |} |} ];
                 Conn_logged := Conn_logged c |}).
Proof.
  intros Hnone. split.
  - intros w. unfold handleEvent. unfold EventHandler in *. by rewrite Hnone.
  - intros seed c id. unfold handleMessage, handleEvent.
    cbn [pb_PanelMessage_Payload pb_PanelMessage_RequestId].
    unfold EventHandler in *. by rewrite Hnone.
Qed.

(** C7: once a handler is registered for a target that had none, a mixin
    call to that target runs that handler (or, if it is nil, answers NEXT)
    whatever is registered afterwards, for the same target or another, with
    any priority: no later registration is ever called. *)
Theorem mixin_first_registered (p : Plugin) (target : string) (priority : Z)
    (handler : option MixinHandler) (later : list MixinRegistration)
    (req : pb_MixinRequest) (w : W) :
  (∀ m, m ∈ Plugin_mixins p → MixinRegistration_Target m ≠ target) →
  pb_MixinRequest_Target req = target →
  handleMixin (registerMixins later (MixinWithPriority target priority handler p)) req w =
  match handler with
  | Some h => runMixin h req w
  | None => (mixinNext, w)
  end.
Proof.
  intros Hfresh Htarget. unfold handleMixin, findMixin.
  rewrite registerMixins_mixins. simpl. rewrite <- app_assoc, Htarget.
  rewrite find_skip.
  - simpl. by rewrite String.eqb_refl.
  - intros m Hm. apply String.eqb_neq. by apply Hfresh.
Qed.

(** C5: in a built registry, a call whose method and path are those of a
    registered route goes to that route's handler, whatever other routes,
    wildcard or not, are registered and in whatever order the map is
    ranged over. *)
Theorem exact_route_first (p : Plugin) (k : string) (cfg : RouteConfig)
    (seed : list string) (req : pb_HTTPRequest) (w : W) :
  built p →
  Plugin_routes p !! k = Some cfg →
  pb_HTTPRequest_Method req = RouteConfig_Method cfg →
  pb_HTTPRequest_Path req = RouteConfig_Path cfg →
  resolveRoute seed p req = Some cfg ∧
  handleHTTP seed p req w = serveRoute cfg req w.
Proof.
  intros Hbuilt Hk Hmethod Hpath.
  assert (Hres : resolveRoute seed p req = Some cfg).
  { unfold resolveRoute. rewrite Hmethod, Hpath.
    by rewrite <- (built_routes_keyed p Hbuilt k cfg Hk), Hk. }
  split; [done|]. unfold handleHTTP. by rewrite Hres.
Qed.

(** C4, amended: with no route under the key of the request, the route
    chosen is the first that applies in the order of this range over the
    map; it is a registered route that applies; none is chosen only when no
    registered route applies; and the choice does not depend on the order
    when a single registered route applies. *)
Theorem wildcard_scan (seed : list string) (p : Plugin) (req : pb_HTTPRequest) :
  Plugin_routes p !! (pb_HTTPRequest_Method req +:+ ":" +:+ pb_HTTPRequest_Path req) = None →
  resolveRoute seed p req
    = List.find (routeApplies req) (range seed (Plugin_routes p)).*2 ∧
  (∀ cfg, resolveRoute seed p req = Some cfg →
          (∃ k, Plugin_routes p !! k = Some cfg) ∧ routeApplies req cfg = true) ∧
  (resolveRoute seed p req = None ↔
   ∀ k cfg, Plugin_routes p !! k = Some cfg → routeApplies req cfg = false) ∧
  (∀ k cfg, Plugin_routes p !! k = Some cfg →
            routeApplies req cfg = true →
            (∀ k' cfg', Plugin_routes p !! k' = Some cfg' →
                        routeApplies req cfg' = true → k' = k) →
            resolveRoute seed p req = Some cfg).
Proof.
  intros Hkey. unfold resolveRoute. rewrite Hkey. split_and!.
  - done.
  - intros cfg. apply find_values_Some.
  - apply find_values_None.
  - intros k cfg Hk Happ Huniq.
    destruct (List.find _ _) as [cfg'|] eqn:Hf.
    + apply find_values_Some in Hf as [[k' Hk'] Happ'].
      rewrite (Huniq k' cfg' Hk' Happ') in Hk'. congruence.
    + rewrite find_values_None in Hf. by rewrite (Hf k cfg Hk) in Happ.
Qed.

(** C2, amended: a request with no route under its key and no route that
    applies in the scan is answered with status 404, the JSON content type,
    and the body [{"error":"not found","success":false}] (the encoder writes
    the keys of a map in sorted order); the program state is unchanged. *)
Theorem not_found_reply (seed : list string) (p : Plugin) (req : pb_HTTPRequest) (w : W) :
  Plugin_routes p !! (pb_HTTPRequest_Method req +:+ ":" +:+ pb_HTTPRequest_Path req) = None →
  (∀ k cfg, Plugin_routes p !! k = Some cfg → routeApplies req cfg = false) →
  handleHTTP seed p req w =
  Done (reply (PluginMessage_HttpResponse
                 {| pb_HTTPResponse_Status := 404;
                    pb_HTTPResponse_Headers := {[ "Content-Type" := "application/json" ]};
                    pb_HTTPResponse_Body := notFoundBody |}), w).
Proof.
  intros Hkey Hnone. unfold handleHTTP, resolveRoute. rewrite Hkey.
  by rewrite (proj2 (find_values_None seed _ _) Hnone).
Qed.

(** The entry that [handleSchedule] picks when a single key has the
    requested id before its first colon. *)
Lemma handleSchedule_single (seed : list string) (p : Plugin) (k : string)
    (handler : option ScheduleHandler) (w : W) :
  Plugin_schedule p !! k = Some handler →
  (∀ k' h', Plugin_schedule p !! k' = Some h' → (splitKey k').1 = (splitKey k).1 → k' = k) →
  handleSchedule seed p {| pb_ScheduleRequest_ScheduleId := (splitKey k).1 |} w
  = runSchedule handler w.
Proof.
  intros Hk Huniq. unfold handleSchedule. simpl.
  destruct (List.find _ _) as [[k' h']|] eqn:Hf.
  - apply find_range_Some in Hf as [Hk' Heq]. simpl in Heq.
    apply String.eqb_eq in Heq. rewrite (Huniq k' h' Hk' Heq) in Hk'.
    assert (h' = handler) as -> by congruence. by destruct handler.
  - rewrite find_range_None in Hf. specialize (Hf k handler Hk). simpl in Hf.
    by rewrite String.eqb_refl in Hf.
Qed.

(** C10, amended: [Schedule] stores the handler under [id+":"+cron];
    [splitKey] cuts a key at its first colon and gives [(key, "")] when
    there is none; a trigger runs one handler among those whose key has the
    trigger's id before its first colon, and none if there is no such key.
    So a trigger whose id holds a colon runs nothing; a trigger with a
    colon-free id runs the handler registered under that id when no other
    key starts with that id and a colon; and a handler registered under an
    id [pre:rest] is run by the trigger [pre] under the same proviso. *)
Theorem schedule_dispatch :
  (∀ id cron handler p,
     Plugin_schedule (Schedule id cron handler p)
     = <[id +:+ ":" +:+ cron := handler]> (Plugin_schedule p)) ∧
  (∀ pre post, colonFree pre = true → splitKey (pre +:+ ":" +:+ post) = (pre, post)) ∧
  (∀ key, colonFree key = true → splitKey key = (key, "")) ∧
  (∀ seed p req w,
     (∃ k handler,
        Plugin_schedule p !! k = Some handler ∧
        (splitKey k).1 = pb_ScheduleRequest_ScheduleId req ∧
        handleSchedule seed p req w = runSchedule handler w)
     ∨ ((∀ k handler, Plugin_schedule p !! k = Some handler →
                      (splitKey k).1 ≠ pb_ScheduleRequest_ScheduleId req) ∧
        handleSchedule seed p req w = Done (reply PluginMessage_ScheduleResponse, w))) ∧
  (∀ seed p req w,
     colonFree (pb_ScheduleRequest_ScheduleId req) = false →
     handleSchedule seed p req w = Done (reply PluginMessage_ScheduleResponse, w)) ∧
  (∀ seed p id cron handler w,
     colonFree id = true →
     Plugin_schedule p !! (id +:+ ":" +:+ cron) = Some handler →
     (∀ k' h', Plugin_schedule p !! k' = Some h' → (splitKey k').1 = id →
               k' = id +:+ ":" +:+ cron) →
     handleSchedule seed p {| pb_ScheduleRequest_ScheduleId := id |} w
     = runSchedule handler w) ∧
  (∀ seed p pre rest cron handler w,
     colonFree pre = true →
     Plugin_schedule p !! ((pre +:+ ":" +:+ rest) +:+ ":" +:+ cron) = Some handler →
     (∀ k' h', Plugin_schedule p !! k' = Some h' → (splitKey k').1 = pre →
               k' = (pre +:+ ":" +:+ rest) +:+ ":" +:+ cron) →
     handleSchedule seed p {| pb_ScheduleRequest_ScheduleId := pre |} w
     = runSchedule handler w).
Proof.
  split_and!.
  - done.
  - apply splitKey_colon.
  - apply splitKey_no_colon.
  - intros seed p req w. unfold handleSchedule.
    destruct (List.find _ _) as [[k h]|] eqn:Hf.
    + left. apply find_range_Some in Hf as [Hk Heq]. simpl in Heq.
      apply String.eqb_eq in Heq. exists k, h. by destruct h.
    + right. split; [|done]. intros k h Hk Heq.
      rewrite find_range_None in Hf. specialize (Hf k h Hk). simpl in Hf.
      by rewrite Heq, String.eqb_refl in Hf.
  - intros seed p req w Hcolon. unfold handleSchedule.
    destruct (List.find _ _) as [[k h]|] eqn:Hf; [|done].
    apply find_range_Some in Hf as [_ Heq]. simpl in Heq.
    apply String.eqb_eq in Heq.
    by rewrite <- Heq, splitKey_fst_colonFree in Hcolon.
  - intros seed p id cron handler w Hfree Hk Huniq.
    pose proof (handleSchedule_single seed p _ handler w Hk) as Hs.
    rewrite (splitKey_colon id cron Hfree) in Hs. by apply Hs.
  - intros seed p pre rest cron handler w Hfree Hk Huniq.
    pose proof (handleSchedule_single seed p _ handler w Hk) as Hs.
    rewrite !str_app_assoc in Hs, Huniq.
    rewrite (splitKey_colon pre (rest +:+ ":" +:+ cron) Hfree) in Hs. by apply Hs.
Qed.

(** [Start] only writes the data directory of [*p]. *)
Lemma Start_plugin (env : Env) (p : Plugin) (panelAddr : string) (w : W) :
  (Start env p panelAddr w).1.2 = set_dataDir (startDataDir env p) p.
Proof.
  unfold Start.
  destruct (grpc_NewClient env); [done|].
  destruct (panel_Connect env); [done|].
  destruct (stream_SendRegister env); [done|].
  destruct (stream_Recv env) as [|[msg seed|e] script]; [done| |done].
  destruct (pb_PanelMessage_Payload msg); try done.
  by destruct (recvLoop _ _ _).
Qed.

(** C1, amended: each way the connection closes (end of stream, transport
    error, Shutdown) ends the receive loop at once, with a nil error, with
    the transport error, or with exit status 0, and changes nothing; [Start]
    never writes the table of pending calls, so a receptacle on which a
    caller waits is still waiting when [Start] is over. *)
Theorem close_leaves_pending :
  (∀ p script c, recvLoop p (RecvErr io_EOF :: script) c = (Returned None, c)) ∧
  (∀ p script c msg,
     recvLoop p (RecvErr (TransportError msg) :: script) c
     = (Returned (Some (TransportError msg)), c)) ∧
  (∀ p script c id seed,
     recvLoop p (RecvMsg {| pb_PanelMessage_RequestId := id;
                            pb_PanelMessage_Payload := PanelMessage_Shutdown |} seed
                 :: script) c
     = (Exited 0, c)) ∧
  (∀ env p panelAddr w,
     (Start env p panelAddr w).1.2 = set_dataDir (startDataDir env p) p ∧
     Plugin_pending (Start env p panelAddr w).1.2 = Plugin_pending p) ∧
  (∀ env p panelAddr w id ch,
     Plugin_pending p !! id = Some ch → Chan_waiting ch = true →
     ∃ ch', Plugin_pending (Start env p panelAddr w).1.2 !! id = Some ch'
            ∧ Chan_waiting ch' = true).
Proof.
  split_and!; try done.
  - intros env p panelAddr w. by rewrite Start_plugin.
  - intros env p panelAddr w id ch Hid Hwait. exists ch. by rewrite Start_plugin.
Qed.

(** An error of the first [Recv], the end of the stream included, is what
    [Start] returns; the receive loop is not entered. *)
Lemma handshake_recv_error (env : Env) (p : Plugin) (panelAddr : string) (w : W)
    (e : error) (script : list Recv) :
  grpc_NewClient env = None →
  panel_Connect env = None →
  stream_SendRegister env = None →
  stream_Recv env = RecvErr e :: script →
  let p' := set_dataDir (startDataDir env p) p in
  Start env p panelAddr w =
  (Returned (Some e), p',
   {| Conn_world := w;
      Conn_sent := [reply (PluginMessage_Register (buildInfo (info_seeds env) p'))];
      Conn_logged := [] |}).
Proof.
  intros Hdial Hconnect Hsend Hrecv. unfold Start.
  by rewrite Hdial, Hconnect, Hsend, Hrecv.
Qed.

(** C3, the code at the failing input: when the channel and the stream
    open, the registration is sent, and the first message received is not
    the acknowledgement, [Start] returns a nil error.  The receive loop is
    not entered: the start hook is not run, nothing is logged, and nothing
    but the registration was sent. *)
Theorem handshake_other_reply_nil (env : Env) (p : Plugin) (panelAddr : string) (w : W)
    (msg : pb_PanelMessage) (seed : list string) (script : list Recv) :
  grpc_NewClient env = None →
  panel_Connect env = None →
  stream_SendRegister env = None →
  stream_Recv env = RecvMsg msg seed :: script →
  pb_PanelMessage_Payload msg ≠ PanelMessage_Registered →
  let p' := set_dataDir (startDataDir env p) p in
  Start env p panelAddr w =
  (Returned None, p',
   {| Conn_world := w;
      Conn_sent := [reply (PluginMessage_Register (buildInfo (info_seeds env) p'))];
      Conn_logged := [] |}).
Proof.
  intros Hdial Hconnect Hsend Hrecv Hother. unfold Start.
  rewrite Hdial, Hconnect, Hsend, Hrecv.
  by destruct (pb_PanelMessage_Payload msg).
Qed.

End Claims.

Section ConfigClaims.
Context `{Host} `{Codec}.


End ConfigClaims.

(** * The claims on the sample plugin *)

Section Samples.
#[local] Existing Instance Demo.host.

(** C8 on the sample: [user.login] has no handler in [Demo.mixed]. *)
Lemma event_without_handler_sample :
  handleEvent Demo.mixed Demo.login ["start"] =
  Done (reply (PluginMessage_EventResponse
                 {| pb_EventResponse_Allow := true;
                    pb_EventResponse_Message := "" |}), ["start"]).
Proof.
  apply (event_without_handler Demo.mixed Demo.login). reflexivity.
Defined.

(** C7 on the sample: of the two handlers of [server.create], the call runs
    the one registered first. *)
Lemma mixin_first_registered_sample :
  (handleMixin Demo.mixed Demo.create []).2 = ["first"].
Proof.
  refine (eq_trans (f_equal snd
    (mixin_first_registered
       (OnEvent "server.start" (Demo.onEvent "start") Demo.fresh)
       "server.create" 5 (Demo.mixin "first")
       [ {| MixinRegistration_Target := "server.create";
            MixinRegistration_Priority := 10;
            MixinRegistration_Handler := Demo.mixin "second" |} ]
       Demo.create [] _ _)) _).
  - intros m Hm. by apply elem_of_nil in Hm.
  - reflexivity.
  - reflexivity.
Defined.

Lemma catalog_built : built Demo.catalog.
Proof.
  unfold Demo.catalog, Demo.shop, Demo.fresh.
  repeat apply built_Route. apply built_New.
Qed.

(** C5 on the sample: [POST /items] goes to the route registered for it,
    also when the range visits the wildcard route first. *)
Lemma exact_route_first_sample :
  (∃ cfg, resolveRoute ["*:/items*"] Demo.catalog (Demo.http "POST" "/items") = Some cfg
          ∧ RouteConfig_Path cfg = "/items") ∧
  ∃ r, handleHTTP ["*:/items*"] Demo.catalog (Demo.http "POST" "/items") []
       = Done (r, ["create"]).
Proof.
  destruct (Plugin_routes Demo.catalog !! "POST:/items") as [cfg|] eqn:Hcfg;
    [|by vm_compute in Hcfg].
  assert (Hm : RouteConfig_Method cfg = "POST") by (vm_compute in Hcfg; by simplify_eq).
  assert (Hp : RouteConfig_Path cfg = "/items") by (vm_compute in Hcfg; by simplify_eq).
  assert (Hh : RouteConfig_Handler cfg = Demo.route "create")
    by (vm_compute in Hcfg; by simplify_eq).
  destruct (exact_route_first Demo.catalog "POST:/items" cfg ["*:/items*"]
              (Demo.http "POST" "/items") [] catalog_built Hcfg) as [Hres Hserve].
  - by rewrite Hm.
  - by rewrite Hp.
  - split; [by exists cfg|]. rewrite Hserve. unfold serveRoute. rewrite Hh.
    simpl. by eexists.
Defined.

(** C4 on the sample: [GET /items/42] has no route under its key and is
    given to the wildcard route. *)
Lemma wildcard_scan_sample :
  RouteConfig_Path <$> resolveRoute [] Demo.shop (Demo.http "GET" "/items/42")
  = Some "/items/*".
Proof.
  rewrite (proj1 (wildcard_scan [] Demo.shop (Demo.http "GET" "/items/42") eq_refl)).
  reflexivity.
Defined.

(** C4 as first stated fails: with the routes [GET /items/*] and [GET /*]
    registered in this order, both apply to [GET /items/42], and the route
    chosen is the first registered under one order of the range and the
    second registered under another. *)
Lemma wildcard_choice_follows_range :
  let req := Demo.http "GET" "/items/42" in
  Plugin_routes Demo.overlapping !! "GET:/items/42" = None ∧
  (RouteConfig_addr <$> Plugin_routes Demo.overlapping !! "GET:/items/*") = Some 0 ∧
  (RouteConfig_addr <$> Plugin_routes Demo.overlapping !! "GET:/*") = Some 1 ∧
  (routeApplies req <$> Plugin_routes Demo.overlapping !! "GET:/items/*") = Some true ∧
  (routeApplies req <$> Plugin_routes Demo.overlapping !! "GET:/*") = Some true ∧
  (RouteConfig_addr <$> resolveRoute ["GET:/items/*"] Demo.overlapping req) = Some 0 ∧
  (RouteConfig_addr <$> resolveRoute ["GET:/*"] Demo.overlapping req) = Some 1 ∧
  ¬ (∀ seed, RouteConfig_addr <$> resolveRoute seed Demo.overlapping req = Some 0).
Proof.
  split_and!; try reflexivity.
  intros Hfirst. specialize (Hfirst ["GET:/*"]). by vm_compute in Hfirst.
Qed.

(** C2 on the sample: [DELETE /items] in the scenario of the spec. *)
Lemma not_found_reply_sample :
  handleHTTP [] Demo.shop (Demo.http "DELETE" "/items") [] =
  Done (reply (PluginMessage_HttpResponse
                 {| pb_HTTPResponse_Status := 404;
                    pb_HTTPResponse_Headers := {[ "Content-Type" := "application/json" ]};
                    pb_HTTPResponse_Body := notFoundBody |}), []).
Proof.
  apply (not_found_reply [] Demo.shop (Demo.http "DELETE" "/items") []).
  - reflexivity.
  - refine (bool_decide_eq_true_1
              (map_Forall (λ _ cfg, routeApplies (Demo.http "DELETE" "/items") cfg = false)
                          (Plugin_routes Demo.shop)) _).
    vm_compute. reflexivity.
Defined.

(** C2 as first stated fails: in the scenario of the spec, the body of the
    404 reply to [DELETE /items] is not the byte string the spec gives. *)
Lemma not_found_body_differs :
  ∃ r, handleHTTP [] Demo.shop (Demo.http "DELETE" "/items") []
       = Done (reply (PluginMessage_HttpResponse r), [])
       ∧ pb_HTTPResponse_Status r = 404%Z
       ∧ pb_HTTPResponse_Body r = notFoundBody
       ∧ pb_HTTPResponse_Body r ≠ notFoundBody_spec.
Proof. eexists. split_and!; [reflexivity|reflexivity|reflexivity|by vm_compute]. Qed.

(** C10 on the sample: no other key starts with [report:], and the trigger
    [report] runs the job registered under that id. *)
Lemma schedule_dispatch_sample :
  handleSchedule ["backup:full:@weekly"; "backup:@daily"] Demo.nightly
                 (Demo.trigger "report") []
  = Done (reply PluginMessage_ScheduleResponse, ["report"]).
Proof.
  refine (proj1 (proj2 (proj2 (proj2 (proj2 (proj2 schedule_dispatch)))))
            ["backup:full:@weekly"; "backup:@daily"] Demo.nightly
            "report" "@daily" (Demo.job "report") [] _ _ _).
  - reflexivity.
  - reflexivity.
  - refine (bool_decide_eq_true_1
              (map_Forall (λ k' _, (splitKey k').1 = "report" → k' = "report:@daily")
                          (Plugin_schedule Demo.nightly)) _).
    vm_compute. reflexivity.
Defined.

(** C10 as first stated fails: [backup] is registered, holds no colon, and
    its handler is [Demo.job "daily"]; under one order of the range the
    trigger [backup] runs the job registered under [backup:full] instead. *)
Lemma trigger_runs_other_job :
  colonFree "backup" = true ∧
  Plugin_schedule Demo.jobs !! "backup:@daily" = Some (Demo.job "daily") ∧
  runSchedule (Demo.job "daily") [] = Done (reply PluginMessage_ScheduleResponse, ["daily"]) ∧
  handleSchedule ["backup:full:@weekly"] Demo.jobs (Demo.trigger "backup") []
  = Done (reply PluginMessage_ScheduleResponse, ["full"]) ∧
  ¬ (∀ seed, handleSchedule seed Demo.jobs (Demo.trigger "backup") []
             = runSchedule (Demo.job "daily") []).
Proof.
  split_and!; try reflexivity.
  intros Hruns. specialize (Hruns ["backup:full:@weekly"]). by vm_compute in Hruns.
Qed.

(** C1 on the sample: the call [call-1] waits before [Start] and still
    waits after the stream has ended. *)
Lemma close_leaves_pending_sample :
  ∃ ch,
    Plugin_pending
      (Start (Demo.panel [RecvMsg (Demo.message "" PanelMessage_Registered) [];
                          RecvErr io_EOF])
             Demo.calling "panel:50051" []).1.2 !! "call-1" = Some ch
    ∧ Chan_waiting ch = true.
Proof.
  refine (proj2 (proj2 (proj2 (proj2 close_leaves_pending))) _ Demo.calling _ _
            "call-1" {| Chan_queue := []; Chan_closed := false |} _ _);
    reflexivity.
Defined.

(** C1 as first stated fails: the connection is acknowledged, then the
    stream ends; [Start] returns nil and the receptacle of [call-1] is
    neither fulfilled nor closed. *)
Lemma pending_call_left_waiting :
  let run := Start (Demo.panel [RecvMsg (Demo.message "" PanelMessage_Registered) [];
                                RecvErr io_EOF])
                   Demo.calling "panel:50051" [] in
  run.1.1 = Returned None ∧
  Plugin_pending run.1.2 !! "call-1" = Some {| Chan_queue := []; Chan_closed := false |} ∧
  Chan_waiting {| Chan_queue := []; Chan_closed := false |} = true ∧
  ¬ (∀ id ch, Plugin_pending run.1.2 !! id = Some ch → Chan_waiting ch = false).
Proof.
  split_and!; try reflexivity.
  intros Hall. by specialize (Hall "call-1" _ eq_refl).
Qed.

(** C3 on the sample: the panel answers the registration with an event. *)
Lemma handshake_other_reply_nil_sample :
  (Start (Demo.panel [RecvMsg (Demo.message "e-1" (PanelMessage_Event Demo.login)) []])
         Demo.mixed "panel:50051" []).1.1 = Returned None.
Proof.
  rewrite (handshake_other_reply_nil
             (Demo.panel [RecvMsg (Demo.message "e-1" (PanelMessage_Event Demo.login)) []])
             Demo.mixed "panel:50051" []
             (Demo.message "e-1" (PanelMessage_Event Demo.login)) [] []);
    reflexivity || discriminate.
Defined.


End Samples.

(** * Further properties of the code *)

Lemma colonIndex_None (s : string) : colonIndex s = None → colonFree s = true.
Proof.
  induction s as [|c s IH]; [done|]. simpl.
  destruct (Ascii.eqb c ":"); [done|]. simpl.
  destruct (colonIndex s); [done|]. intros _. by apply IH.
Qed.

(** X1: [splitKey] loses nothing.  Its first part never holds a colon; for
    a key with a colon, the two parts joined by a colon are the key; a key
    without a colon comes back whole, with an empty second part. *)
Theorem splitKey_rejoin (key : string) :
  colonFree (splitKey key).1 = true ∧
  (colonFree key = false → (splitKey key).1 +:+ ":" +:+ (splitKey key).2 = key) ∧
  (colonFree key = true → splitKey key = (key, "")).
Proof.
  split_and!.
  - apply splitKey_fst_colonFree.
  - intros Hcolon. destruct (colonIndex key) as [i|] eqn:Hi.
    + destruct (colonIndex_split _ _ Hi) as (pre & post & -> & Hfree & _).
      by rewrite splitKey_colon.
    + apply colonIndex_None in Hi. congruence.
  - apply splitKey_no_colon.
Qed.

Section Registration.
Context `{Host}.

Lemma buildInfo_Routes (seeds : InfoSeeds) (p : Plugin) :
  pb_PluginInfo_Routes (buildInfo seeds p)
  = map (λ kv, routeInfo kv.2) (range (seed_routes seeds) (Plugin_routes p)).
Proof. reflexivity. Qed.

Lemma length_range {V : Type} (seed : list string) (m : gmap string V) :
  length (range seed m) = size m.
Proof. by rewrite range_perm, length_map_to_list. Qed.

(** X2: the registration lists one schedule per key of [p.schedule], each
    split by [splitKey], whatever the order of the range.  A job registered
    under a colon-free id is announced with that id and its cron
    expression; a job registered under [pre:rest] is announced with the id
    [pre] and the cron expression [rest:cron]. *)
Theorem buildInfo_schedules (seeds : InfoSeeds) (p : Plugin) :
  length (pb_PluginInfo_Schedules (buildInfo seeds p)) = size (Plugin_schedule p) ∧
  (∀ info, info ∈ pb_PluginInfo_Schedules (buildInfo seeds p) ↔
           ∃ k handler, Plugin_schedule p !! k = Some handler ∧
                        splitKey k = (pb_ScheduleInfo_Id info, pb_ScheduleInfo_Cron info)) ∧
  (∀ id cron handler,
     colonFree id = true →
     Plugin_schedule p !! (id +:+ ":" +:+ cron) = Some handler →
     {| pb_ScheduleInfo_Id := id; pb_ScheduleInfo_Cron := cron |}
       ∈ pb_PluginInfo_Schedules (buildInfo seeds p)) ∧
  (∀ pre rest cron handler,
     colonFree pre = true →
     Plugin_schedule p !! ((pre +:+ ":" +:+ rest) +:+ ":" +:+ cron) = Some handler →
     {| pb_ScheduleInfo_Id := pre; pb_ScheduleInfo_Cron := rest +:+ ":" +:+ cron |}
       ∈ pb_PluginInfo_Schedules (buildInfo seeds p)).
Proof.
  assert (Hmem : ∀ info, info ∈ pb_PluginInfo_Schedules (buildInfo seeds p) ↔
           ∃ k handler, Plugin_schedule p !! k = Some handler ∧
                        splitKey k = (pb_ScheduleInfo_Id info, pb_ScheduleInfo_Cron info)).
  { intros info. simpl. rewrite list_elem_of_In, in_map_iff. split.
    - intros ([k h] & Hinfo & Hin). apply list_elem_of_In, elem_of_range in Hin.
      exists k, h. split; [done|]. simpl in Hinfo.
      destruct (splitKey k) as [id cron]. by subst info.
    - intros (k & h & Hk & Hsplit). exists (k, h). split.
      + simpl. by rewrite Hsplit; destruct info.
      + by apply list_elem_of_In, elem_of_range. }
  split_and!.
  - simpl. by rewrite length_map, length_range.
  - exact Hmem.
  - intros id cron handler Hfree Hk. apply Hmem.
    exists (id +:+ ":" +:+ cron), handler.
    split; [done|]. by apply splitKey_colon.
  - intros pre rest cron handler Hfree Hk. apply Hmem.
    exists ((pre +:+ ":" +:+ rest) +:+ ":" +:+ cron), handler.
    split; [done|]. rewrite !str_app_assoc. by apply (splitKey_colon pre).
Qed.

(** X3: the registration names exactly the event types that have a handler
    in the registry, each once, whatever the order of the range. *)
Theorem buildInfo_events (seeds : InfoSeeds) (p : Plugin) :
  NoDup (pb_PluginInfo_Events (buildInfo seeds p)) ∧
  length (pb_PluginInfo_Events (buildInfo seeds p)) = size (Plugin_events p) ∧
  ∀ eventType, eventType ∈ pb_PluginInfo_Events (buildInfo seeds p)
               ↔ is_Some (Plugin_events p !! eventType).
Proof.
  split_and!.
  - apply range_keys_NoDup.
  - simpl. by rewrite length_fmap, length_range.
  - intros t. simpl. rewrite list_elem_of_fmap. split.
    + intros ([k h] & -> & Hin). apply elem_of_range in Hin. by exists h.
    + intros [h Hh]. exists (t, h). split; [done|]. by apply elem_of_range.
Qed.

(** X4: the registration holds one entry per route of the registry, with
    its method and path.  The entry carries a rate limit exactly when the
    route has a preset name or a positive number of requests per minute: a
    limit set with zero or negative requests per minute and no preset is not
    sent, whatever its burst. *)
Theorem buildInfo_routes (seeds : InfoSeeds) (p : Plugin) :
  length (pb_PluginInfo_Routes (buildInfo seeds p)) = size (Plugin_routes p) ∧
  (∀ info, info ∈ pb_PluginInfo_Routes (buildInfo seeds p) ↔
           ∃ k cfg, Plugin_routes p !! k = Some cfg ∧ info = routeInfo cfg) ∧
  (∀ cfg, pb_RouteInfo_Method (routeInfo cfg) = RouteConfig_Method cfg ∧
          pb_RouteInfo_Path (routeInfo cfg) = RouteConfig_Path cfg ∧
          (pb_RouteInfo_RateLimit (routeInfo cfg) = None ↔
           RouteConfig_RateLimitPreset cfg = "" ∧ (RouteConfig_RateLimitRPM cfg ≤ 0)%Z)).
Proof.
  split_and!.
  - by rewrite buildInfo_Routes, length_map, length_range.
  - intros info. rewrite buildInfo_Routes, list_elem_of_In, in_map_iff. split.
    + intros ([k cfg] & <- & Hin). apply list_elem_of_In, elem_of_range in Hin.
      by exists k, cfg.
    + intros (k & cfg & Hk & ->). exists (k, cfg). split; [done|].
      by apply list_elem_of_In, elem_of_range.
  - intros cfg. split_and!; [done..|]. unfold routeInfo. simpl.
    destruct (String.eqb_spec (RouteConfig_RateLimitPreset cfg) "") as [Heq|Hne];
      destruct (Z.ltb_spec 0 (RouteConfig_RateLimitRPM cfg)) as [Hlt|Hle];
      simpl; intuition (try lia; try congruence; try discriminate).
Qed.

End Registration.

Section Connection.
Context `{Host}.

Lemma handleMessage_cases (seed : list string) (p : Plugin) (c : Conn)
    (msg : pb_PanelMessage) :
  match handleMessage seed p c msg with
  | Continue c' =>
      if isCall (pb_PanelMessage_Payload msg)
      then ∃ payload w',
             answers (pb_PanelMessage_Payload msg) payload = true ∧
             c' = {| Conn_world := w';
                     Conn_sent := Conn_sent c ++
                       [ {| pb_PluginMessage_RequestId := pb_PanelMessage_RequestId msg;
                            pb_PluginMessage_Payload := payload |} ];
                     Conn_logged := Conn_logged c |}
      else c' = c
  | Exit code c' =>
      code = 0%Z ∧ c' = c ∧ pb_PanelMessage_Payload msg = PanelMessage_Shutdown
  | Crash => isCall (pb_PanelMessage_Payload msg) = true
  end.
Proof.
  unfold handleMessage, sendReply.
  destruct (pb_PanelMessage_Payload msg) as [|ev|req|req|req|req| |]; simpl; try done.
  - unfold handleEvent. repeat case_match; simplify_eq; simpl; try done;
      do 2 eexists; (split; [|reflexivity]); reflexivity.
  - unfold handleHTTP, serveRoute. repeat case_match; simplify_eq; simpl; try done;
      do 2 eexists; (split; [|reflexivity]); reflexivity.
  - unfold handleSchedule. repeat case_match; simplify_eq; simpl; try done;
      do 2 eexists; (split; [|reflexivity]); reflexivity.
  - unfold handleMixin, runMixin. repeat case_match; simplify_eq; simpl; try done;
      do 2 eexists; (split; [|reflexivity]); reflexivity.
  - unfold handleAddonType. repeat case_match; simplify_eq; simpl; try done;
      do 2 eexists; (split; [|reflexivity]); reflexivity.
Qed.


Lemma recvLoop_sent (p : Plugin) (script : list Recv) (c : Conn) :
  Conn_logged (recvLoop p script c).2 = Conn_logged c ∧
  ∃ added, Conn_sent (recvLoop p script c).2 = Conn_sent c ++ added ∧
           (pb_PluginMessage_RequestId <$> added) `sublist_of` recvIds script.
Proof.
  revert c. induction script as [|[msg seed|e] script IH]; intros c.
  - simpl. split; [done|]. exists []. by rewrite app_nil_r.
  - simpl. pose proof (handleMessage_cases seed p c msg) as Hc.
    destruct (handleMessage seed p c msg) as [c'|code c'|].
    + destruct (IH c') as (Hlog & added & Hsent & Hsub).
      destruct (isCall (pb_PanelMessage_Payload msg)).
      * destruct Hc as (payload & w' & _ & ->). simpl in *.
        split; [done|]. eexists (_ :: added).
        rewrite Hsent, <- app_assoc. split; [done|]. simpl. by constructor.
      * subst c'. split; [done|]. exists added. split; [done|]. by constructor.
    + destruct Hc as (_ & -> & _). simpl. split; [done|]. exists [].
      rewrite app_nil_r. split; [done|]. apply sublist_nil_l.
    + simpl. split; [done|]. exists []. rewrite app_nil_r. split; [done|].
      apply sublist_nil_l.
  - assert (Hsame : (recvLoop p (RecvErr e :: script) c).2 = c) by by destruct e.
    rewrite Hsame. split; [done|]. exists []. rewrite app_nil_r. split; [done|].
    apply sublist_nil_l.
Qed.

(** X6: the receive loop answers in order of arrival.  Whatever the
    script of received messages and however the loop ends, what was sent
    before stays as it was, the envelopes added carry request ids that form
    a subsequence of the request ids received (at most one reply per
    message, none out of order), and the loop makes no log call. *)
Theorem recvLoop_replies (p : Plugin) (script : list Recv) (c : Conn) :
  Conn_logged (recvLoop p script c).2 = Conn_logged c ∧
  ∃ added, Conn_sent (recvLoop p script c).2 = Conn_sent c ++ added ∧
           (pb_PluginMessage_RequestId <$> added) `sublist_of` recvIds script.
Proof. apply recvLoop_sent. Qed.

(** X7: the opening of [Start].  If creating the channel, opening the
    stream or sending the registration fails, [Start] returns that error
    (the first in this order) and has sent nothing, run nothing and logged
    nothing.  Otherwise the first envelope sent is the registration of the
    plugin, with an empty request id, and every later envelope answers a
    message received after the first one.  The log call announcing the start
    is made once if the first message is the acknowledgement, and never
    otherwise. *)
Theorem Start_opening (env : Env) (p : Plugin) (panelAddr : string) (w : W) :
  let p' := set_dataDir (startDataDir env p) p in
  (∀ err, openError env = Some err →
          Start env p panelAddr w
          = (Returned (Some err), p',
             {| Conn_world := w; Conn_sent := []; Conn_logged := [] |})) ∧
  (openError env = None →
   ∃ rest, Conn_sent (Start env p panelAddr w).2
           = reply (PluginMessage_Register (buildInfo (info_seeds env) p')) :: rest ∧
           (pb_PluginMessage_RequestId <$> rest)
             `sublist_of` recvIds (tail (stream_Recv env))) ∧
  Conn_logged (Start env p panelAddr w).2
  = if acknowledged env
    then [ {| pb_LogRequest_Level := "info";
              pb_LogRequest_Message :=
                Plugin_name p +:+ " v" +:+ Plugin_version p +:+ " started" |} ]
    else [].
Proof.
  unfold Start, openError, acknowledged.
  destruct (grpc_NewClient env) as [e1|]; [by split_and!; [intros ? [= <-]|..]|].
  destruct (panel_Connect env) as [e2|]; [by split_and!; [intros ? [= <-]|..]|].
  destruct (stream_SendRegister env) as [e3|]; [by split_and!; [intros ? [= <-]|..]|].
  split_and!; [done| |].
  - intros _. destruct (stream_Recv env) as [|[msg seed|e] script].
    + exists []. split; [done|]. apply sublist_nil_l.
    + destruct (pb_PanelMessage_Payload msg);
        try (exists []; split; [done|]; apply sublist_nil_l).
      match goal with |- context [recvLoop ?q ?s ?c0] =>
        destruct (recvLoop_sent q s c0) as (_ & added & Hsent & Hsub);
        destruct (recvLoop q s c0) as [out c'] end.
      simpl in *. exists added. split; [|done].
      rewrite Hsent. by destruct (Plugin_onStart _).
    + exists []. split; [done|]. apply sublist_nil_l.
  - destruct (stream_Recv env) as [|[msg seed|e] script]; [done| |done].
    destruct (pb_PanelMessage_Payload msg); try done.
    match goal with |- context [recvLoop ?q ?s ?c0] =>
      destruct (recvLoop_sent q s c0) as (Hlog & _);
      destruct (recvLoop q s c0) as [out c'] end.
    simpl in *. rewrite Hlog. by destruct (Plugin_onStart _).
Qed.

End Connection.

Section Dispatch.
Context `{Host}.

(** X8: registering an event handler and dispatching to it.  After
    [OnEvent eventType handler], an event of that type is answered with the
    verdict and the message the handler returns, unchanged, and the handler
    is given the type, data and sync flag of the event, whatever was
    registered for that type before (the last registration wins); events of
    every other type are dispatched as before the call. *)
Theorem OnEvent_dispatch (p : Plugin) (eventType : string) (handler : EventHandler)
    (ev : pb_Event) (w : W) :
  (pb_Event_Type ev = eventType →
   handleEvent (OnEvent eventType (Some handler) p) ev w =
   Done (reply (PluginMessage_EventResponse
                  {| pb_EventResponse_Allow :=
                       EventResult_allow
                         (handler {| Event_Type := pb_Event_Type ev;
                                     Event_Data := pb_Event_Data ev;
                                     Event_Sync := pb_Event_Sync ev |} w).1;
                     pb_EventResponse_Message :=
                       EventResult_message
                         (handler {| Event_Type := pb_Event_Type ev;
                                     Event_Data := pb_Event_Data ev;
                                     Event_Sync := pb_Event_Sync ev |} w).1 |}),
         (handler {| Event_Type := pb_Event_Type ev;
                     Event_Data := pb_Event_Data ev;
                     Event_Sync := pb_Event_Sync ev |} w).2)) ∧
  (pb_Event_Type ev ≠ eventType →
   ∀ other, handleEvent (OnEvent eventType other p) ev w = handleEvent p ev w).
Proof.
  split.
  - intros <-. unfold handleEvent, OnEvent. simpl. unfold EventHandler.
    rewrite lookup_insert_eq. by destruct (handler _ w).
  - intros Hne other. unfold handleEvent, OnEvent. simpl. unfold EventHandler.
    by rewrite lookup_insert_ne.
Qed.

(** X9: a mixin call to a target that no registration names is answered
    with the NEXT action and no output, error, modified input or
    notification; no handler runs and the program state is unchanged. *)
Theorem mixin_without_handler (p : Plugin) (req : pb_MixinRequest) (w : W) :
  (∀ m, m ∈ Plugin_mixins p → MixinRegistration_Target m ≠ pb_MixinRequest_Target req) →
  handleMixin p req w =
  (reply (PluginMessage_MixinResponse
            {| pb_MixinResponse_Action := pb_MixinResponse_NEXT;
               pb_MixinResponse_Output := "";
               pb_MixinResponse_Error := "";
               pb_MixinResponse_ModifiedInput := "";
               pb_MixinResponse_Notifications := [] |}), w).
Proof.
  intros Hnone. unfold handleMixin, findMixin.
  rewrite <- (app_nil_r (Plugin_mixins p)), find_skip; [done|].
  intros m Hm. apply String.eqb_neq. by apply Hnone.
Qed.

(** X10: an addon-type call.  For a type id without a handler the reply is
    a failure with the fixed error text and no action, and the program state
    is unchanged.  For a registered handler the reply copies the success
    flag, the error and the message, and holds the handler's actions in the
    same number and the same order, each with its tag and fields as they
    were. *)
Theorem handleAddonType_reply (p : Plugin) (req : pb_AddonTypeRequest) (w : W) :
  (Plugin_addonTypes p !! pb_AddonTypeRequest_TypeId req = None →
   handleAddonType p req w =
   Done (reply (PluginMessage_AddonTypeResponse
                  {| pb_AddonTypeResponse_Success := false;
                     pb_AddonTypeResponse_Error := "addon type handler not found";
                     pb_AddonTypeResponse_Message := "";
                     pb_AddonTypeResponse_Actions := [] |}), w)) ∧
  (∀ handler, Plugin_addonTypes p !! pb_AddonTypeRequest_TypeId req = Some (Some handler) →
     ∃ res w' r,
       handler {| AddonTypeRequest_TypeID := pb_AddonTypeRequest_TypeId req;
                  AddonTypeRequest_ServerID := pb_AddonTypeRequest_ServerId req;
                  AddonTypeRequest_NodeID := pb_AddonTypeRequest_NodeId req;
                  AddonTypeRequest_DownloadURL := pb_AddonTypeRequest_DownloadUrl req;
                  AddonTypeRequest_FileName := pb_AddonTypeRequest_FileName req;
                  AddonTypeRequest_InstallPath := pb_AddonTypeRequest_InstallPath req;
                  AddonTypeRequest_SourceInfo := pb_AddonTypeRequest_SourceInfo req;
                  AddonTypeRequest_ServerVariables :=
                    pb_AddonTypeRequest_ServerVariables req |} w = (res, w') ∧
       handleAddonType p req w = Done (reply (PluginMessage_AddonTypeResponse r), w') ∧
       pb_AddonTypeResponse_Success r = AddonTypeResponse_Success res ∧
       pb_AddonTypeResponse_Error r = AddonTypeResponse_Error res ∧
       pb_AddonTypeResponse_Message r = AddonTypeResponse_Message res ∧
       length (pb_AddonTypeResponse_Actions r) = length (AddonTypeResponse_Actions res) ∧
       ∀ i, pb_AddonTypeResponse_Actions r !! i
            = wireAction <$> AddonTypeResponse_Actions res !! i).
Proof.
  unfold handleAddonType, AddonTypeHandler. split.
  - by intros ->.
  - intros handler ->.
    destruct (handler _ w) as [res w'] eqn:Hres.
    eexists res, w', _. split_and!; try reflexivity.
    + simpl. by rewrite length_map.
    + intros i. simpl. apply list_lookup_fmap.
Qed.

(** X11: a route for every method and every path.  If the registry holds
    a route with method [*] and path [*], every request is given to some
    registered route that applies, or to the route under its own key, for
    every order of the range: no request is answered with the 404 reply. *)
Theorem catch_all_route (p : Plugin) (k : string) (cfg : RouteConfig)
    (seed : list string) (req : pb_HTTPRequest) (w : W) :
  Plugin_routes p !! k = Some cfg →
  RouteConfig_Method cfg = "*" →
  RouteConfig_Path cfg = "*" →
  ∃ k' cfg', Plugin_routes p !! k' = Some cfg' ∧
             resolveRoute seed p req = Some cfg' ∧
             handleHTTP seed p req w = serveRoute cfg' req w.
Proof.
  intros Hk Hmethod Hpath. unfold handleHTTP, resolveRoute.
  destruct (Plugin_routes p !! (_ +:+ ":" +:+ _)) as [cfg'|] eqn:Hexact.
  - by eexists _, cfg'.
  - destruct (List.find _ _) as [cfg'|] eqn:Hf.
    + apply find_values_Some in Hf as [[k' Hk'] _]. by exists k', cfg'.
    + rewrite find_values_None in Hf. specialize (Hf k cfg Hk).
      unfold routeApplies in Hf. rewrite Hmethod, Hpath in Hf. simpl in Hf.
      assert (matchPath "*" (pb_HTTPRequest_Path req) = true) as Hm; [|by rewrite Hm in Hf].
      apply (matchPath_wildcard "" (pb_HTTPRequest_Path req)).
      split; [simpl; lia|apply str_upto_0].
Qed.

End Dispatch.

Section RangeMore.
Context {A B : Type}.

Lemma omap_keys_fmap (g : A → B) (ks : list string) (m : gmap string A) :
  omap (λ k, (k,.) <$> (g <$> m) !! k) ks
  = prod_map id g <$> omap (λ k, (k,.) <$> m !! k) ks.
Proof.
  induction ks as [|k ks IH]; [done|].
  cbn [omap list_omap]. rewrite lookup_fmap.
  destruct (m !! k) as [x|]; cbn; by rewrite IH.
Qed.

Lemma filter_keys_fmap (g : A → B) (ks : list string) (l : list (string * A)) :
  filter (λ kv : string * B, kv.1 ∉ ks) (prod_map id g <$> l)
  = prod_map id g <$> filter (λ kv : string * A, kv.1 ∉ ks) l.
Proof.
  induction l as [|[k x] l IH]; [done|].
  rewrite fmap_cons, !filter_cons. cbn.
  destruct (decide (k ∉ ks)); cbn; by rewrite IH.
Qed.

Lemma range_fmap (g : A → B) (seed : list string) (m : gmap string A) :
  range seed (g <$> m) = prod_map id g <$> range seed m.
Proof.
  unfold range. by rewrite fmap_app, map_to_list_fmap, omap_keys_fmap, filter_keys_fmap.
Qed.

Lemma find_fmap (P : B → bool) (Q : A → bool) (g : A → B) (l : list A) :
  (∀ x, P (g x) = Q x) → List.find P (g <$> l) = g <$> List.find Q l.
Proof.
  intros HPQ. induction l as [|x l IH]; [done|]. simpl.
  rewrite HPQ. by destruct (Q x).
Qed.

End RangeMore.

Section Routes.
Context `{Host}.

Lemma route_key_inj (m1 p1 m2 p2 : string) :
  colonFree m1 = true → colonFree m2 = true →
  m1 +:+ ":" +:+ p1 = m2 +:+ ":" +:+ p2 → m1 = m2 ∧ p1 = p2.
Proof.
  intros H1 H2 Hkey.
  pose proof (splitKey_colon m1 p1 H1) as Hs1.
  rewrite Hkey, (splitKey_colon m2 p2 H2) in Hs1. by simplify_eq.
Qed.

(** X12: two registrations in a row.  A request for the method and path
    of the first route is served by the second route's handler when the
    second route has the same method and path (the later registration
    replaces the earlier), and by the first route's handler when the two
    differ in method or path and neither method holds a colon; this for
    every order of the range and whatever else the registry holds. *)
Theorem Route_then_Route (p : Plugin) (m1 p1 m2 p2 : string)
    (h1 h2 : option RouteHandler) (seed : list string) (req : pb_HTTPRequest) (w : W) :
  pb_HTTPRequest_Method req = m1 →
  pb_HTTPRequest_Path req = p1 →
  let p' := (Route m2 p2 h2 (Route m1 p1 h1 p).1).1 in
  (m1 = m2 ∧ p1 = p2 →
   handleHTTP seed p' req w =
   serveRoute {| RouteConfig_addr := S (Plugin_allocs p);
                 RouteConfig_Method := m2; RouteConfig_Path := p2;
                 RouteConfig_Handler := h2; RouteConfig_RateLimitPreset := "";
                 RouteConfig_RateLimitRPM := 0; RouteConfig_RateLimitBurst := 0 |} req w) ∧
  (colonFree m1 = true → colonFree m2 = true → m1 ≠ m2 ∨ p1 ≠ p2 →
   handleHTTP seed p' req w =
   serveRoute {| RouteConfig_addr := Plugin_allocs p;
                 RouteConfig_Method := m1; RouteConfig_Path := p1;
                 RouteConfig_Handler := h1; RouteConfig_RateLimitPreset := "";
                 RouteConfig_RateLimitRPM := 0; RouteConfig_RateLimitBurst := 0 |} req w).
Proof.
  intros Hm Hp p'. unfold handleHTTP, resolveRoute. rewrite Hm, Hp. subst p'. simpl.
  split.
  - intros [-> ->]. by rewrite lookup_insert_eq.
  - intros Hf1 Hf2 Hne. rewrite lookup_insert_ne, lookup_insert_eq; [done|].
    intros Hkey. apply route_key_inj in Hkey as [-> ->]; [|done..]. by destruct Hne.
Qed.

Lemma writeConfig_routing (a : nat) (f : RouteConfig → RouteConfig) (p : Plugin)
    (seed : list string) (req : pb_HTTPRequest) (w : W) :
  (∀ c, RouteConfig_Method (f c) = RouteConfig_Method c ∧
        RouteConfig_Path (f c) = RouteConfig_Path c ∧
        RouteConfig_Handler (f c) = RouteConfig_Handler c) →
  handleHTTP seed (writeConfig a f p) req w = handleHTTP seed p req w.
Proof.
  intros Hf. set (g := λ c, if RouteConfig_addr c =? a then f c else c).
  assert (Hg : ∀ c, RouteConfig_Method (g c) = RouteConfig_Method c ∧
                    RouteConfig_Path (g c) = RouteConfig_Path c ∧
                    RouteConfig_Handler (g c) = RouteConfig_Handler c).
  { intros c. unfold g. destruct (RouteConfig_addr c =? a); [apply Hf|done]. }
  assert (Hserve : ∀ c, serveRoute (g c) req w = serveRoute c req w).
  { intros c. unfold serveRoute. by rewrite (proj2 (proj2 (Hg c))). }
  assert (Happ : ∀ c, routeApplies req (g c) = routeApplies req c).
  { intros c. unfold routeApplies. destruct (Hg c) as (-> & -> & _). done. }
  unfold handleHTTP, resolveRoute, writeConfig. simpl. fold g.
  rewrite lookup_fmap.
  destruct (Plugin_routes p !! _) as [c|]; simpl; [apply Hserve|].
  rewrite range_fmap, <- list_fmap_compose.
  rewrite (list_fmap_ext (snd ∘ prod_map id g) (g ∘ snd) (range seed (Plugin_routes p)))
    by (by intros ? []).
  rewrite list_fmap_compose, (find_fmap _ (routeApplies req) g) by done.
  destruct (List.find _ _); simpl; [apply Hserve|done].
Qed.

(** X13: the rate-limit setters never change routing.  After [RateLimit]
    or [RateLimitPreset], through any builder, every request is answered as
    before, for every order of the range. *)
Theorem rate_limit_keeps_routing (rb : RouteBuilder) (rpm burst : Z) (preset : string)
    (p : Plugin) (seed : list string) (req : pb_HTTPRequest) (w : W) :
  handleHTTP seed (RateLimit rb rpm burst p).1 req w = handleHTTP seed p req w ∧
  handleHTTP seed (RateLimitPreset rb preset p).1 req w = handleHTTP seed p req w.
Proof. split; by apply writeConfig_routing. Qed.

Lemma built_addr_bound (p : Plugin) :
  built p →
  ∀ k cfg, Plugin_routes p !! k = Some cfg → RouteConfig_addr cfg < Plugin_allocs p.
Proof.
  induction 1 as [id version|name p _ IH|p _ IH|fn p _ IH|eventType handler p _ IH
                 |method path handler p _ IH|rb rpm burst p _ IH|rb preset p _ IH
                 |id cron handler p _ IH|target priority handler p _ IH
                 |typeID name description handler p _ IH|dir p _ IH];
    intros k cfg; try exact (IH k cfg).
  - simpl. by rewrite lookup_empty.
  - simpl. rewrite lookup_insert. case_decide as Hk.
    + intros [= <-]. simpl. lia.
    + intros Hc. specialize (IH k cfg Hc). lia.
  - simpl. rewrite lookup_fmap.
    destruct (Plugin_routes p !! k) as [c|] eqn:Hc; [|done]. simpl.
    intros [= <-]. specialize (IH k c Hc). by destruct (RouteConfig_addr c =? _).
  - simpl. rewrite lookup_fmap.
    destruct (Plugin_routes p !! k) as [c|] eqn:Hc; [|done]. simpl.
    intros [= <-]. specialize (IH k c Hc). by destruct (RouteConfig_addr c =? _).
Qed.

(** X14: the builder that [Route] returns points to the route just
    registered.  On a built registry, [RateLimit] through that builder sets
    the limits of that route and leaves every other route as it was, and the
    registration then carries the limits when the requests per minute are
    positive; once a later [Route] with the same method and path has
    replaced the route, the old builder no longer changes the registry. *)
Theorem RateLimit_through_builder (p : Plugin) (method path : string)
    (handler handler' : option RouteHandler) (rpm burst : Z) (seeds : InfoSeeds) :
  built p →
  let r := Route method path handler p in
  let p2 := (RateLimit r.2 rpm burst r.1).1 in
  Plugin_routes p2 !! (method +:+ ":" +:+ path)
  = Some {| RouteConfig_addr := Plugin_allocs p;
            RouteConfig_Method := method; RouteConfig_Path := path;
            RouteConfig_Handler := handler; RouteConfig_RateLimitPreset := "";
            RouteConfig_RateLimitRPM := rpm; RouteConfig_RateLimitBurst := burst |} ∧
  (∀ k, k ≠ method +:+ ":" +:+ path → Plugin_routes p2 !! k = Plugin_routes p !! k) ∧
  ((0 < rpm)%Z →
   {| pb_RouteInfo_Method := method; pb_RouteInfo_Path := path;
      pb_RouteInfo_RateLimit :=
        Some {| pb_RateLimitConfig_Preset := "";
                pb_RateLimitConfig_RequestsPerMinute := int32 rpm;
                pb_RateLimitConfig_BurstLimit := int32 burst |} |}
     ∈ pb_PluginInfo_Routes (buildInfo seeds p2)) ∧
  (let q := (Route method path handler' r.1).1 in
   Plugin_routes (RateLimit r.2 rpm burst q).1 = Plugin_routes q).
Proof.
  intros Hbuilt r p2. subst r p2.
  pose proof (built_addr_bound p Hbuilt) as Hbound.
  assert (Hkey : ∀ k, ((λ c, if RouteConfig_addr c =? Plugin_allocs p
                              then {| RouteConfig_addr := RouteConfig_addr c;
                                      RouteConfig_Method := RouteConfig_Method c;
                                      RouteConfig_Path := RouteConfig_Path c;
                                      RouteConfig_Handler := RouteConfig_Handler c;
                                      RouteConfig_RateLimitPreset :=
                                        RouteConfig_RateLimitPreset c;
                                      RouteConfig_RateLimitRPM := rpm;
                                      RouteConfig_RateLimitBurst := burst |}
                              else c) <$> Plugin_routes p) !! k = Plugin_routes p !! k).
  { intros k. rewrite lookup_fmap. destruct (Plugin_routes p !! k) as [c|] eqn:Hc; [|done].
    simpl. specialize (Hbound k c Hc).
    destruct (Nat.eqb_spec (RouteConfig_addr c) (Plugin_allocs p)); [lia|done]. }
  split_and!.
  - simpl. rewrite lookup_fmap, lookup_insert_eq. simpl. by rewrite Nat.eqb_refl.
  - simpl. intros k Hk. rewrite lookup_fmap, lookup_insert_ne by done.
    rewrite <- lookup_fmap. apply Hkey.
  - intros Hrpm. rewrite buildInfo_Routes, list_elem_of_In, in_map_iff.
    eexists (method +:+ ":" +:+ path, _). split.
    2:{ apply list_elem_of_In, elem_of_range. simpl.
        rewrite lookup_fmap, lookup_insert_eq. simpl. by rewrite Nat.eqb_refl. }
    unfold routeInfo. simpl.
    by destruct (Z.ltb_spec 0 rpm); [|lia].
  - simpl. apply map_eq. intros k. rewrite insert_insert_eq, lookup_fmap.
    destruct (decide (method +:+ ":" +:+ path = k)) as [<-|Hk].
    + rewrite lookup_insert_eq. cbn -[Nat.eqb].
      destruct (Nat.eqb_spec (S (Plugin_allocs p)) (Plugin_allocs p)); [lia|done].
    + rewrite lookup_insert_ne by done. rewrite <- lookup_fmap. apply Hkey.
Qed.

End Routes.

Section Replies.
Context `{Host}.

Lemma int32_fits (x : Z) : fitsInt32 (int32 x).
Proof.
  unfold fitsInt32, int32.
  pose proof (Z.mod_pos_bound (x + 2 ^ 31) (2 ^ 32) eq_refl). lia.
Qed.

Lemma int32_id (x : Z) : fitsInt32 x → int32 x = x.
Proof.
  unfold fitsInt32, int32. intros Hx. rewrite Z.mod_small; lia.
Qed.

(** X15: the status of an HTTP reply.  [int32] is the identity on the
    values of that range, always lands in it, and forgets multiples of
    2^32; so the reply of a route copies the handler's headers and body, and
    its status too when the status fits [int32] (a status outside is
    wrapped).  The handler is given the method, path, headers, query and
    user id of the request, its body as raw bytes and the decoded body. *)
Theorem http_reply_status (cfg : RouteConfig) (handler : RouteHandler)
    (req : pb_HTTPRequest) (w : W) :
  RouteConfig_Handler cfg = Some handler →
  let out := handler {| Request_Method := pb_HTTPRequest_Method req;
                        Request_Path := pb_HTTPRequest_Path req;
                        Request_Headers := pb_HTTPRequest_Headers req;
                        Request_Query := pb_HTTPRequest_Query req;
                        Request_Body := json_Unmarshal (pb_HTTPRequest_Body req);
                        Request_RawBody := pb_HTTPRequest_Body req;
                        Request_UserID := pb_HTTPRequest_UserId req |} w in
  (∃ status,
     serveRoute cfg req w =
     Done (reply (PluginMessage_HttpResponse
                    {| pb_HTTPResponse_Status := status;
                       pb_HTTPResponse_Headers := Response_Headers out.1;
                       pb_HTTPResponse_Body := Response_body out.1 |}), out.2) ∧
     fitsInt32 status ∧
     (∃ n, Response_Status out.1 = status + n * 2 ^ 32)%Z ∧
     (fitsInt32 (Response_Status out.1) → status = Response_Status out.1)) ∧
  (∀ x n, int32 (x + n * 2 ^ 32) = int32 x).
Proof.
  intros Hh out. split.
  - exists (int32 (Response_Status out.1)). split_and!.
    + unfold serveRoute. rewrite Hh. subst out. by destruct (handler _ w).
    + apply int32_fits.
    + exists ((Response_Status out.1 + 2 ^ 31) / 2 ^ 32)%Z. unfold int32.
      pose proof (Z.div_mod (Response_Status out.1 + 2 ^ 31) (2 ^ 32)). lia.
    + apply int32_id.
  - intros x n. unfold int32.
    replace (x + n * 2 ^ 32 + 2 ^ 31)%Z with (x + 2 ^ 31 + n * 2 ^ 32)%Z by lia.
    by rewrite Z.mod_add.
Qed.

Lemma escapeByte_plain (c : ascii) : plainByte c = true → json.escapeByte c = String c "".
Proof.
  destruct c as [[] [] [] [] [] [] [] []]; vm_compute; done.
Qed.

Lemma escape_plain (s : string) : plainText s = true → json.escape s = s.
Proof.
  induction s as [|c s IH]; [done|]. simpl.
  intros [Hc Hs]%andb_true_iff. by rewrite (escapeByte_plain c Hc), (IH Hs).
Qed.

(** X16: the body of an error reply.  For a message of plain text (printable
    ASCII without the double quote, the backslash, and the characters
    [<], [>] and [&]), both [errorResponse] and [Error] give the body
    [{"error":"<message>","success":false}], with the key [error] first
    and the message copied as it is, and the JSON content type. *)
Theorem error_body_plain (status : Z) (msg : string) :
  plainText msg = true →
  pb_HTTPResponse_Body (errorResponse status msg) = errorBody msg ∧
  Response_body (Error status msg) = errorBody msg ∧
  pb_HTTPResponse_Headers (errorResponse status msg) !! "Content-Type"
  = Some "application/json" ∧
  Response_Headers (Error status msg) !! "Content-Type" = Some "application/json".
Proof.
  intros Hplain.
  assert (Hbody : json.Marshal (json.Map [("success", json.Bool false);
                                          ("error", json.Text msg)]) = errorBody msg).
  { cbn. unfold json.quote. rewrite (escape_plain msg Hplain).
    change ("success" <=? "error")%string with false.
    cbn [json.joinFields fst snd]. unfold json.quote, errorBody.
    rewrite !str_app_assoc. reflexivity. }
  split_and!; try done.
Qed.

End Replies.

(** X17: the edges of the route matcher.  The pattern [*] matches every
    path; the empty pattern matches the empty path only; a pattern that does
    not end in [*] matches itself only (a [*] elsewhere is an ordinary
    byte); a wildcard pattern matches its own prefix, and goes on matching
    when the path is extended. *)
Theorem matchPath_edges :
  (∀ path, matchPath "*" path = true) ∧
  (∀ path, matchPath "" path = true ↔ path = "") ∧
  (∀ pattern path,
     String.get (String.length pattern - 1) pattern ≠ Some "*"%char →
     (matchPath pattern path = true ↔ pattern = path)) ∧
  (∀ pre, matchPath (pre +:+ "*") pre = true) ∧
  (∀ pre path more,
     matchPath (pre +:+ "*") path = true → matchPath (pre +:+ "*") (path +:+ more) = true).
Proof.
  split_and!.
  - intros path. apply (matchPath_wildcard "" path). split; [simpl; lia|apply str_upto_0].
  - intros [|a path]; [done|]. by split.
  - intros pattern path Hlast. split; [|intros ->; apply matchPath_refl].
    intros Hm. destruct (matchPath_inv _ _ Hm) as [?|[pre ->]]; [done|].
    destruct Hlast. apply (str_last_byte_snoc pre "*").
  - intros pre. apply matchPath_wildcard, upto_prefix. exists "".
    by rewrite str_app_nil_r.
  - intros pre path more [rest ->]%matchPath_wildcard%upto_prefix.
    apply matchPath_wildcard, upto_prefix. exists (rest +:+ more).
    by rewrite str_app_assoc.
Qed.

Section UIFacts.
Import UI.

Lemma fmap_alter_same {A B : Type} (f : A → B) (g : A → A) (i : nat) (l : list A) :
  (∀ x, f (g x) = f x) → f <$> alter g i l = f <$> l.
Proof.
  intros Hfg. revert i. induction l as [|x l IH]; intros [|i]; cbn; try done.
  - by rewrite Hfg.
  - f_equal. apply IH.
Qed.

Lemma call_keys (c : Call) (u : UIBuilder) :
  pageKey <$> pages (call c u) = (pageKey <$> pages u) ++ pagesCreated [c] ∧
  tabKey <$> tabs (call c u) = (tabKey <$> tabs u) ++ tabsCreated [c] ∧
  itemKey <$> sidebarItems (call c u) = (itemKey <$> sidebarItems u) ++ itemsCreated [c].
Proof.
  destruct c; cbn; unfold EmbedBundle; try case_match; cbn;
    rewrite ?app_nil_r, ?fmap_app, ?fmap_alter_same by done; done.
Qed.

(** X18: the descriptor lists pages, tabs and sidebar items in the order
    of their creation.  After any run of calls of the builder API, the
    pages of [build] are the pages there were, then one page per [Page] call
    in call order, each with the path and component of its call; likewise
    the tabs (id, component, target, label) and the sidebar items (id,
    label, href, section).  No setter and no bundle call adds, drops,
    reorders or renames one. *)
Theorem ui_creation_order (cs : list Call) (u : UIBuilder) :
  pageKey <$> Info_Pages (build (calls cs u)) = (pageKey <$> pages u) ++ pagesCreated cs ∧
  tabKey <$> Info_Tabs (build (calls cs u)) = (tabKey <$> tabs u) ++ tabsCreated cs ∧
  itemKey <$> Info_SidebarItems (build (calls cs u))
  = (itemKey <$> sidebarItems u) ++ itemsCreated cs.
Proof.
  cbn [build Info_Pages Info_Tabs Info_SidebarItems].
  revert u. induction cs as [|c cs IH]; intros u.
  - cbn. by rewrite !app_nil_r.
  - destruct (IH (call c u)) as (Hp & Ht & Hi).
    destruct (call_keys c u) as (Hp1 & Ht1 & Hi1).
    change (calls (c :: cs) u) with (calls cs (call c u)).
    rewrite Hp, Ht, Hi, Hp1, Ht1, Hi1, <- !app_assoc.
    unfold pagesCreated, tabsCreated, itemsCreated.
    change (c :: cs) with ([c] ++ cs). by rewrite !omap_app.
Qed.

Lemma call_bundle (c : Call) (u : UIBuilder) :
  (hasBundle u = true → hasBundle (call c u) = true) ∧
  ((bundleData u ≠ "" → hasBundle u = true) →
   bundleData (call c u) ≠ "" → hasBundle (call c u) = true).
Proof.
  destruct c; cbn; unfold EmbedBundle; try case_match; cbn; auto.
Qed.

(** X19: the bundle of the descriptor.  From a fresh builder, after any
    run of calls, a descriptor that carries bundle data has its bundle flag
    set; the flag, once set, is never cleared; and [EmbedBundle] on a path
    that the embedded file system does not hold changes nothing, while on a
    path it holds it stores those bytes and sets the flag. *)
Theorem ui_bundle (cs : list Call) :
  (Info_BundleData (build (calls cs newUIBuilder)) ≠ "" →
   Info_HasBundle (build (calls cs newUIBuilder)) = true) ∧
  (∀ u, hasBundle u = true → hasBundle (calls cs u) = true) ∧
  (∀ fs path u, fs !! path = None → EmbedBundle fs path u = u) ∧
  (∀ fs path data u, fs !! path = Some data →
     GetBundleData (EmbedBundle fs path u) = data ∧
     hasBundle (EmbedBundle fs path u) = true).
Proof.
  split_and!.
  - cbn [build Info_BundleData Info_HasBundle].
    assert (Hinv : ∀ u, (bundleData u ≠ "" → hasBundle u = true) →
                        bundleData (calls cs u) ≠ "" → hasBundle (calls cs u) = true).
    { induction cs as [|c cs IH]; intros u Hu; [done|].
      change (calls (c :: cs) u) with (calls cs (call c u)).
      apply IH. by apply (proj2 (call_bundle c u)). }
    by apply Hinv.
  - induction cs as [|c cs IH]; intros u Hu; [done|].
    change (calls (c :: cs) u) with (calls cs (call c u)).
    apply IH. by apply (proj1 (call_bundle c u)).
  - intros fs path u Hnone. unfold EmbedBundle. by rewrite Hnone.
  - intros fs path data u Hsome. unfold EmbedBundle. by rewrite Hsome.
Qed.

Lemma call_children (c : Call) (u : UIBuilder) (i : nat) (item : PluginUISidebarItem) :
  sidebarItems u !! i = Some item →
  ∃ item', sidebarItems (call c u) !! i = Some item' ∧
           itemKey item' = itemKey item ∧
           Item_Children item' = Item_Children item ++ childrenAdded i [c].
Proof.
  intros Hi.
  assert (Hsame : ∃ item', sidebarItems u !! i = Some item' ∧
           itemKey item' = itemKey item ∧
           Item_Children item' = Item_Children item ++ [])
    by (exists item; by rewrite app_nil_r).
  assert (Hwrite : ∀ b f,
            (∀ s, itemKey (f s) = itemKey s ∧ Item_Children (f s) = Item_Children s) →
            ∃ item', alter f (UISidebarBuilder_item b) (sidebarItems u) !! i = Some item' ∧
                     itemKey item' = itemKey item ∧
                     Item_Children item' = Item_Children item ++ []).
  { intros b f Hf. rewrite list_lookup_alter.
    case_decide as Hb; [rewrite Hb|]; rewrite Hi; simpl.
    - exists (f item). destruct (Hf item) as [-> ->]. by rewrite app_nil_r.
    - exists item. by rewrite app_nil_r. }
  destruct c; cbn; try done; try (by apply Hwrite).
  - unfold EmbedBundle. by case_match.
  - exists item. rewrite app_nil_r. split; [|done].
    by apply lookup_app_l_Some.
  - rewrite list_lookup_alter.
    destruct (Nat.eqb_spec (UISidebarBuilder_item b) i) as [->|Hne].
    + rewrite decide_True by done. rewrite Hi. simpl. by eexists.
    + rewrite decide_False by done. rewrite Hi. exists item. by rewrite app_nil_r.
Qed.

(** X20: the children of a sidebar item.  After any run of calls, an item
    that was there is still at its place, with the id, label, href and
    section it had, and its children are the children it had followed by
    the children of the [Child] calls made through its builder, in call
    order; calls through other builders add none. *)
Theorem ui_children (cs : list Call) (u : UIBuilder) (i : nat)
    (item : PluginUISidebarItem) :
  sidebarItems u !! i = Some item →
  ∃ item', Info_SidebarItems (build (calls cs u)) !! i = Some item' ∧
           itemKey item' = itemKey item ∧
           Item_Children item' = Item_Children item ++ childrenAdded i cs.
Proof.
  cbn [build Info_SidebarItems].
  revert u item. induction cs as [|c cs IH]; intros u item Hi.
  - exists item. by rewrite app_nil_r.
  - destruct (call_children c u i item Hi) as (item1 & Hi1 & Hk1 & Hc1).
    destruct (IH (call c u) item1 Hi1) as (item' & Hi' & Hk' & Hc').
    exists item'. change (calls (c :: cs) u) with (calls cs (call c u)).
    split_and!; [done|congruence|].
    rewrite Hc', Hc1, <- app_assoc. unfold childrenAdded.
    change (c :: cs) with ([c] ++ cs). by rewrite omap_app.
Qed.

Lemma call_page (c : Call) (u : UIBuilder) (j : nat) (page : PluginUIPage) :
  pages u !! j = Some page →
  ∃ page', pages (call c u) !! j = Some page' ∧
           pageKey page' = pageKey page ∧
           Page_Title page' = lastTitle j [c] (Page_Title page) ∧
           Page_Icon page' = lastIcon j [c] (Page_Icon page) ∧
           Page_Guard page' = lastGuard j [c] (Page_Guard page).
Proof.
  intros Hj.
  assert (Hsame : pages (call c u) = pages u →
                  lastTitle j [c] (Page_Title page) = Page_Title page →
                  lastIcon j [c] (Page_Icon page) = Page_Icon page →
                  lastGuard j [c] (Page_Guard page) = Page_Guard page →
                  ∃ page', pages (call c u) !! j = Some page' ∧
                           pageKey page' = pageKey page ∧
                           Page_Title page' = lastTitle j [c] (Page_Title page) ∧
                           Page_Icon page' = lastIcon j [c] (Page_Icon page) ∧
                           Page_Guard page' = lastGuard j [c] (Page_Guard page)).
  { intros -> -> -> ->. by exists page. }
  destruct c as [|fs path|data|path component|b title|b icon|b|b guard| | | | | | | |];
    try (apply Hsame; [|done..]; cbn; unfold EmbedBundle; try case_match; done).
  - exists page. split; [|done]. cbn. by apply lookup_app_l_Some.
  - cbn -[Nat.eqb]. destruct (Nat.eqb_spec (UIPageBuilder_page b) j) as [->|Hne].
    + rewrite list_lookup_alter_eq, Hj. by eexists.
    + rewrite list_lookup_alter_ne by done. by exists page.
  - cbn -[Nat.eqb]. destruct (Nat.eqb_spec (UIPageBuilder_page b) j) as [->|Hne].
    + rewrite list_lookup_alter_eq, Hj. by eexists.
    + rewrite list_lookup_alter_ne by done. by exists page.
  - cbn -[Nat.eqb]. destruct (Nat.eqb_spec (UIPageBuilder_page b) j) as [->|Hne].
    + rewrite list_lookup_alter_eq, Hj. by eexists.
    + rewrite list_lookup_alter_ne by done. by exists page.
  - cbn -[Nat.eqb]. destruct (Nat.eqb_spec (UIPageBuilder_page b) j) as [->|Hne].
    + rewrite list_lookup_alter_eq, Hj. by eexists.
    + rewrite list_lookup_alter_ne by done. by exists page.
Qed.

(** X21: the setters of a page builder write to the page of that builder
    only, and each to its own field.  Whatever calls are made on the UI
    builder, in whatever order, a page that exists is afterwards still at
    its position in the built pages, with the path and the component it was
    created with; its title is that of the last [Title] call made through
    its builder, its icon that of the last [Icon] call and its guard that
    of the last [Guard] or [AdminOnly] call ([AdminOnly] giving "admin"),
    each being what it was before if there was no such call.  So [Title]
    and [Icon] keep the guard, and no call on another builder reaches the
    page. *)
Theorem ui_page_setters (cs : list Call) (u : UIBuilder) (j : nat) (page : PluginUIPage) :
  pages u !! j = Some page →
  ∃ page', Info_Pages (build (calls cs u)) !! j = Some page' ∧
           pageKey page' = pageKey page ∧
           Page_Title page' = lastTitle j cs (Page_Title page) ∧
           Page_Icon page' = lastIcon j cs (Page_Icon page) ∧
           Page_Guard page' = lastGuard j cs (Page_Guard page).
Proof.
  cbn [build Info_Pages].
  revert u page. induction cs as [|c cs IH]; intros u page Hj.
  - by exists page.
  - destruct (call_page c u j page Hj) as (page1 & Hj1 & Hk1 & Ht1 & Hi1 & Hg1).
    destruct (IH (call c u) page1 Hj1) as (page' & Hj' & Hk' & Ht' & Hi' & Hg').
    exists page'. change (calls (c :: cs) u) with (calls cs (call c u)).
    split_and!; [done|congruence|..].
    + by rewrite Ht', Ht1.
    + by rewrite Hi', Hi1.
    + by rewrite Hg', Hg1.
Qed.

End UIFacts.

(** * The further properties on the sample plugin *)

Section MoreSamples.
#[local] Existing Instance Demo.host.

(** X9 on the sample: [Demo.mixed] has handlers for [server.create] only. *)
Lemma mixin_without_handler_sample :
  handleMixin Demo.mixed Demo.delete ["start"] =
  (reply (PluginMessage_MixinResponse
            {| pb_MixinResponse_Action := 0;
               pb_MixinResponse_Output := "";
               pb_MixinResponse_Error := "";
               pb_MixinResponse_ModifiedInput := "";
               pb_MixinResponse_Notifications := [] |}), ["start"]).
Proof.
  apply (mixin_without_handler Demo.mixed Demo.delete ["start"]).
  intros m [->|[->|Hm%elem_of_nil]%elem_of_cons]%elem_of_cons; done.
Defined.

(** X11 on the sample: [DELETE /nothing] is given to the route [* *]. *)
Lemma catch_all_route_sample :
  ∃ k' cfg', Plugin_routes Demo.fallback !! k' = Some cfg' ∧
             resolveRoute [] Demo.fallback (Demo.http "DELETE" "/nothing") = Some cfg' ∧
             handleHTTP [] Demo.fallback (Demo.http "DELETE" "/nothing") []
             = serveRoute cfg' (Demo.http "DELETE" "/nothing") [].
Proof.
  apply (catch_all_route Demo.fallback "*:*" Demo.anyRoute); reflexivity.
Defined.

(** X12 on the sample: in the shop, [POST /items] is still served by the
    first route after [GET /items/*] was registered. *)
Lemma Route_then_Route_sample :
  handleHTTP [] Demo.shop (Demo.http "POST" "/items") [] =
  serveRoute {| RouteConfig_addr := 0;
                RouteConfig_Method := "POST"; RouteConfig_Path := "/items";
                RouteConfig_Handler := Demo.route "create";
                RouteConfig_RateLimitPreset := "";
                RouteConfig_RateLimitRPM := 0; RouteConfig_RateLimitBurst := 0 |}
             (Demo.http "POST" "/items") [].
Proof.
  apply (proj2 (Route_then_Route Demo.fresh "POST" "/items" "GET" "/items/*"
                  (Demo.route "create") (Demo.route "list") []
                  (Demo.http "POST" "/items") [] eq_refl eq_refl));
    [reflexivity|reflexivity|by left].
Defined.

(** X14 on the sample: a route registered on a fresh plugin and limited
    through its builder. *)
Lemma RateLimit_through_builder_sample :
  Plugin_routes (RateLimit (Route "GET" "/status" (Demo.route "status") Demo.fresh).2 60 10
                           (Route "GET" "/status" (Demo.route "status") Demo.fresh).1).1
    !! "GET:/status"
  = Some {| RouteConfig_addr := 0;
            RouteConfig_Method := "GET"; RouteConfig_Path := "/status";
            RouteConfig_Handler := Demo.route "status"; RouteConfig_RateLimitPreset := "";
            RouteConfig_RateLimitRPM := 60; RouteConfig_RateLimitBurst := 10 |}.
Proof.
  apply (proj1 (RateLimit_through_builder Demo.fresh "GET" "/status"
                  (Demo.route "status") None 60 10 Demo.seeds (built_New "shop" "1.0"))).
Defined.

(** X15 on the sample: the status 200 of the handler is the status sent. *)
Lemma http_reply_status_sample :
  ∃ status,
    serveRoute Demo.listRoute (Demo.http "GET" "/items/42") [] =
    Done (reply (PluginMessage_HttpResponse
                   {| pb_HTTPResponse_Status := status;
                      pb_HTTPResponse_Headers := {[ "Content-Type" := "text/plain" ]};
                      pb_HTTPResponse_Body := "list" |}), ["list"])
    ∧ status = 200%Z.
Proof.
  destruct (Demo.route "list") as [handler|] eqn:Hh; [|discriminate].
  destruct (proj1 (http_reply_status Demo.listRoute handler
                     (Demo.http "GET" "/items/42") [] Hh))
    as (status & Hserve & _ & _ & Hid).
  injection Hh as <-. exists status. split.
  - exact Hserve.
  - apply Hid. unfold fitsInt32. simpl. lia.
Defined.

(** X16 on the sample: the message of the 404 reply is plain text. *)
Lemma error_body_plain_sample :
  pb_HTTPResponse_Body (errorResponse 404 "not found") = errorBody "not found" ∧
  Response_body (Error 404 "not found") = errorBody "not found" ∧
  pb_HTTPResponse_Headers (errorResponse 404 "not found") !! "Content-Type"
  = Some "application/json" ∧
  Response_Headers (Error 404 "not found") !! "Content-Type" = Some "application/json".
Proof. apply (error_body_plain 404 "not found"). reflexivity. Defined.

(** X20 on the sample: two children added through the builder of the
    item, a page created in between. *)
Lemma ui_children_sample :
  ∃ item',
    UI.Info_SidebarItems
      (UI.build (UI.calls [UI.CallSidebarChild UI.menuItem "All" "/servers/all";
                           UI.CallPage "/servers" "ServerList";
                           UI.CallSidebarChild UI.menuItem "Mine" "/servers/mine"]
                          UI.menu)) !! 0 = Some item'
    ∧ UI.itemKey item' = ("servers", "Servers", "/servers", "nav")
    ∧ UI.Item_Children item'
      = [ {| UI.Child_Label := "All"; UI.Child_Href := "/servers/all" |};
          {| UI.Child_Label := "Mine"; UI.Child_Href := "/servers/mine" |} ].
Proof.
  apply (ui_children [UI.CallSidebarChild UI.menuItem "All" "/servers/all";
                      UI.CallPage "/servers" "ServerList";
                      UI.CallSidebarChild UI.menuItem "Mine" "/servers/mine"]
                     UI.menu 0
                     {| UI.Item_Id := "servers"; UI.Item_Label := "Servers";
                        UI.Item_Href := "/servers"; UI.Item_Section := "nav";
                        UI.Item_Icon := ""; UI.Item_Order := 0; UI.Item_Guard := "";
                        UI.Item_Children := [] |}).
  reflexivity.
Defined.


(** X21 on the sample: the page [/servers] is made admin-only, then given
    a title and an icon, while another page is created and guarded. *)
Lemma ui_page_setters_sample :
  ∃ page',
    UI.Info_Pages
      (UI.build (UI.calls [UI.CallPageAdminOnly UI.sitePage;
                           UI.CallPageTitle UI.sitePage "Servers";
                           UI.CallPage "/nodes" "NodeList";
                           UI.CallPageGuard {| UI.UIPageBuilder_page := 1 |} "owner";
                           UI.CallPageIcon UI.sitePage "server"]
                          UI.site)) !! 0 = Some page'
    ∧ UI.pageKey page' = ("/servers", "ServerList")
    ∧ UI.Page_Title page' = "Servers"
    ∧ UI.Page_Icon page' = "server"
    ∧ UI.Page_Guard page' = "admin".
Proof.
  apply (ui_page_setters [UI.CallPageAdminOnly UI.sitePage;
                          UI.CallPageTitle UI.sitePage "Servers";
                          UI.CallPage "/nodes" "NodeList";
                          UI.CallPageGuard {| UI.UIPageBuilder_page := 1 |} "owner";
                          UI.CallPageIcon UI.sitePage "server"]
                         UI.site 0
                         {| UI.Page_Path := "/servers"; UI.Page_Component := "ServerList";
                            UI.Page_Title := ""; UI.Page_Icon := ""; UI.Page_Guard := "" |}).
  reflexivity.
Defined.

End MoreSamples.
